(** * fuse-rsdos: the RS-DOS (Disk Extended Color BASIC) on-disk format engine

    A shallow embedding of [fuse_rsdos/rsdosfs.py] and
    [fuse_rsdos/writablefs.py].  Python integers are [Z], [bytes] objects are
    [list byte], the backing image is the list of its bytes, a [set] is a
    [gset], exceptions are the constructors of [exn], and a generator is the
    list of the values it yields together with the way it ends. *)

From Stdlib Require Import ZArith Lia.
From Stdlib.Strings Require Import Byte.
From stdpp Require Import base numbers list list_numbers sorting gmap sets strings pretty.

Local Open Scope Z_scope.

(** ** Exceptions and outcomes *)

(** The two messages [RecoverableCorruption] is raised with:
    [f"granule #{n} corrupt: value 0x{b:02x} out of range"] and
    ["loop in granule map"]. *)
Inductive corruption : Type :=
| GranuleOutOfRange (n b : Z)
| LoopInGranuleMap.

Inductive exn : Type :=
| RecoverableCorruption (msg : corruption)
| FilesystemFatalError
| DiskFullError
| IndexError (msg : string)
| AssertionError
| NameError (name : string)
| TypeError
| ValueError
| OSError
| StructError
| AttributeError.

(** What running a piece of Python gives: a value, an exception, or no answer
    at all ([Diverge]: the loop is still running when the fuel is spent). *)
Inductive outcome (A : Type) : Type :=
| Ok (a : A)
| Raise (e : exn)
| Diverge.
Arguments Ok {A} a.
Arguments Raise {A} e.
Arguments Diverge {A}.

#[global] Instance outcome_ret : MRet outcome := @Ok.

#[global] Instance outcome_bind : MBind outcome := fun A B k m =>
  match m with
  | Ok a => k a
  | Raise e => Raise e
  | Diverge => Diverge
  end.

(** [assert c] *)
Definition py_assert (c : bool) : outcome unit :=
  if c then Ok tt else Raise AssertionError.

(** A generator, run to its end: the values it yields, in order, and how it
    ends ([Ok tt] is StopIteration). *)
Record generator (A : Type) : Type := Gen {
  yielded : list A;
  ending : outcome unit
}.
Arguments Gen {A} yielded ending.
Arguments yielded {A} g.
Arguments ending {A} g.

Definition gen_end {A : Type} (fin : outcome unit) : generator A := Gen [] fin.

Definition gen_yield {A : Type} (x : A) (g : generator A) : generator A :=
  Gen (x :: yielded g) (ending g).

(** ** Bytes and slices *)

Definition byte_val (b : byte) : Z := Z.of_N (Byte.to_N b).

Definition len {A : Type} (l : list A) : Z := Z.of_nat (length l).

(** [data[:k]], also for a negative [k] *)
Definition slice_to {A : Type} (data : list A) (k : Z) : list A :=
  if k <? 0 then take (Z.to_nat (len data + k)) data
  else take (Z.to_nat k) data.

(** [data[k:]], also for a negative [k] *)
Definition slice_from {A : Type} (data : list A) (k : Z) : list A :=
  if k <? 0 then drop (Z.to_nat (len data + k)) data
  else drop (Z.to_nat k) data.

(** [data[i:j]] for [0 <= i] and [0 <= j] *)
Definition slice {A : Type} (data : list A) (i j : Z) : list A :=
  drop (Z.to_nat i) (take (Z.to_nat j) data).

Definition ceildiv (a b : Z) : Z := - (a / - b).

(** ** Geometry *)

Module Geometry.

Record t : Type := Make {
  sectors_per_track : Z;
  sectors_per_granule : Z;
  bytes_per_sector : Z;
  directory_track : Z;
  directory_sectors : Z;
  max_granules : Z;
  directory_entry_size : Z;
  sides : Z
}.

(** [Geometry()]: the class attributes *)
Definition default : t := {|
  sectors_per_track := 18;
  sectors_per_granule := 9;
  bytes_per_sector := 256;
  directory_track := 17;
  directory_sectors := 9;
  max_granules := 192;
  directory_entry_size := 32;
  sides := 1
|}.

Definition max_filesystem_sectors (self : t) : Z :=
  sectors_per_granule self * max_granules self + sectors_per_track self.

Definition max_filesystem_bytes (self : t) : Z :=
  max_filesystem_sectors self * bytes_per_sector self.

Definition max_directory_entries (self : t) : Z :=
  directory_sectors self * bytes_per_sector self / directory_entry_size self.

End Geometry.

(** ** Directory entries *)

Module DirectoryEntry.

Record t : Type := Make {
  n : Z;
  filename : list byte;
  extension : list byte;
  filetype : Z;
  ascii_flag : Z;
  first_granule : Z;
  last_sector_bytes_used : Z;
  _reserved : list byte;
  free : bool;
  null : bool
}.

(** [set(bs) == { v }] *)
Definition set_is (bs : list byte) (v : Z) : bool :=
  bool_decide ((list_to_set (byte_val <$> bs) : gset Z) = {[ v ]}).

(** [unpack("!8s3sBBBH16s", raw)]: network byte order, no padding; a
    buffer that is not 32 bytes long is a [struct.error]. *)
Definition fromraw (n : Z) (raw : list byte) (geom : Geometry.t) : outcome t :=
  if negb (len raw =? 32) then Raise StructError
  else
    let filename := slice raw 0 8 in
    let extension := slice raw 8 11 in
    let filetype := byte_val (nth 11 raw x00) in
    let ascii_flag := byte_val (nth 12 raw x00) in
    let first_granule := byte_val (nth 13 raw x00) in
    let last_sector_bytes_used :=
      byte_val (nth 14 raw x00) * 256 + byte_val (nth 15 raw x00) in
    let _reserved := slice raw 16 32 in
    let null := set_is raw 0 in
    let free := (byte_val (nth 0 filename x00) =? 0) || set_is filename 255 in
    Ok (Make n filename extension filetype ascii_flag first_granule
             last_sector_bytes_used _reserved free null).

(** [bs.rstrip(b' ')] *)
Fixpoint rstrip_space (bs : list byte) : list byte :=
  match bs with
  | [] => []
  | b :: l =>
      match rstrip_space l with
      | [] => if byte_val b =? 32 then [] else [b]
      | r => b :: r
      end
  end.

Definition pretty_filename_bytes (self : t) : list byte :=
  rstrip_space (filename self) ++ [x2e] ++ rstrip_space (extension self).

End DirectoryEntry.

(** ** Allocation-map entries *)

(** [fromraw] takes an [int] (from iterating over a [bytes] object) or a
    [bytes] object (from [pread]). *)
Inductive raw_arg : Type :=
| RawInt (v : Z)
| RawBytes (bs : list byte).

Module GranuleInfo.

Record t : Type := Make {
  raw_value : Z;
  n : Z;
  next_n : option Z;
  sectors_used : Z;
  bytes_used : Z;
  last : bool;
  free : bool;
  geom : Geometry.t
}.

(** [(b,) = bytes([raw_value])] or [(b,) = bytes(raw_value)] *)
Definition the_byte (raw_value : raw_arg) : outcome Z :=
  match raw_value with
  | RawInt v => if (0 <=? v) && (v <? 256) then Ok v else Raise ValueError
  | RawBytes [x] => Ok (byte_val x)
  | RawBytes _ => Raise ValueError
  end.

Definition fromraw (n : Z) (raw_value : raw_arg) (last_sector_bytes_used : Z)
    (geom : Geometry.t) : outcome t :=
  b ← the_byte raw_value;
  if (0 <=? b) && (b <? 0xc0) then
    Ok {| raw_value := b; n := n; next_n := Some b;
          sectors_used := Geometry.sectors_per_granule geom;
          bytes_used := Geometry.sectors_per_granule geom * Geometry.bytes_per_sector geom;
          last := false; free := false; geom := geom |}
  else if (0xc0 <=? b) && (b <=? 0xc9) then
    let sectors_used := Z.land b 0xf in
    _ ← py_assert (sectors_used <=? Geometry.sectors_per_granule geom);
    bytes_used ←
      (if sectors_used =? 0 then
         _ ← py_assert (last_sector_bytes_used =? 0); Ok 0
       else
         Ok ((sectors_used - 1) * Geometry.bytes_per_sector geom + last_sector_bytes_used));
    Ok {| raw_value := b; n := n; next_n := None;
          sectors_used := sectors_used; bytes_used := bytes_used;
          last := true; free := false; geom := geom |}
  else if b =? 0xff then
    Ok {| raw_value := b; n := n; next_n := None;
          sectors_used := 0; bytes_used := 0;
          last := true; free := true; geom := geom |}
  else Raise (RecoverableCorruption (GranuleOutOfRange n b)).

End GranuleInfo.

Record FilesystemStats : Type := {
  total_granule_count : Z;
  free_granule_count : Z;
  used_granule_count : Z;
  total_direntry_count : Z;
  free_direntry_count : Z;
  used_direntry_count : Z;
  size_in_granules : Z;
  fs_sectors_per_track : Z;
  fs_sectors_per_granule : Z;
  fs_bytes_per_sector : Z
}.

(** ** The text encoding of file names *)

(** [decoding_table] of [encodings/tandycoco_hires.py]: 128 ASCII characters
    and 32 accented ones, as code points. *)
Definition decoding_table : list Z :=
  seqZ 0 128 ++
  [ 0xc7; 0xfc; 0xe9; 0xe2; 0xe4; 0xe0; 0xe5; 0xe7;
    0xea; 0xeb; 0xe8; 0xef; 0xee; 0xdf; 0xc4; 0xc5;
    0xf3; 0xe6; 0xc6; 0xf4; 0xf6; 0xf8; 0xfb; 0xf9;
    0xd8; 0x16c; 0xdc; 0xa7; 0xa3; 0xb1; 0xba; 0x192 ].

(** [bs.decode('tandycoco-hires', 'surrogateescape')]: a byte the table does
    not have becomes the lone surrogate U+DC00 + byte. *)
Definition decode_tandycoco (bs : list byte) : list Z :=
  (fun b => default (0xdc00 + byte_val b) (decoding_table !! Z.to_nat (byte_val b))) <$> bs.

(** ** The read-only filesystem *)

Module RSDOSFilesystem.

Import Geometry.

(** [io] is the backing image: a regular file, whose size the fallback of
    [_getsize64] finds by seeking to its end. *)
Record t : Type := Make { io : list byte }.

Definition geom (self : t) : Geometry.t := Geometry.default.

Definition _getsize64 (self : t) : Z := len (io self).

(** The [OddSizeWarning] of a trailing partial sector is a diagnostic only. *)
Definition sector_count (self : t) : outcome Z :=
  let n := _getsize64 self in
  let n_sectors := n / bytes_per_sector (geom self) in
  if n_sectors <? (directory_track (geom self) + 1) * sectors_per_track (geom self)
  then Raise FilesystemFatalError
  else Ok n_sectors.

Definition granule_count (self : t) : outcome Z :=
  sc ← sector_count self;
  let s := sc - sectors_per_track (geom self) in
  Ok (s / sectors_per_granule (geom self)).

Definition sector_range_linear (self : t) (n sector_count : Z) : Z * Z :=
  let start := n * bytes_per_sector (geom self) in
  let end_ := start + bytes_per_sector (geom self) * sector_count in
  (start, end_).

Definition sector_range (self : t) (cyl secnr sector_count : Z) : outcome (Z * Z) :=
  if negb (0 <=? cyl) then Raise (IndexError "cylinder number out of range")
  else if negb ((1 <=? secnr) && (secnr <=? sectors_per_track (geom self)))
  then Raise (IndexError "sector number out of range")
  else if negb ((0 <=? sector_count)
                && (sector_count <=? sectors_per_track (geom self) - (secnr - 1)))
  then Raise (IndexError "sector count out of range")
  else Ok (sector_range_linear self
             (cyl * sectors_per_track (geom self) + (secnr - 1)) sector_count).

Definition granule_range_sectors (self : t) (granule : Z) : Z * Z :=
  let sec_start := granule * sectors_per_granule (geom self) in
  let sec_end := (granule + 1) * sectors_per_granule (geom self) in
  if sec_start >=? directory_track (geom self) * sectors_per_track (geom self)
  then (sec_start + sectors_per_track (geom self),
        sec_end + sectors_per_track (geom self))
  else (sec_start, sec_end).

Definition granule_range (self : t) (granule : Z) : Z * Z :=
  let '(sec_start, sec_end) := granule_range_sectors self granule in
  let start := fst (sector_range_linear self sec_start 1) in
  let end_ := fst (sector_range_linear self sec_end 1) in
  (start, end_).

Definition directory_range (self : t) : outcome (Z * Z) :=
  sector_range self (directory_track (geom self)) 3 (directory_sectors (geom self)).

Definition directory_entry_range (self : t) (n : Z) : outcome (Z * Z) :=
  '(d_start, d_end) ←
    sector_range self (directory_track (geom self)) 3 (directory_sectors (geom self));
  let dent_start := d_start + n * directory_entry_size (geom self) in
  let dent_end := dent_start + directory_entry_size (geom self) in
  if negb ((d_start <=? dent_start) && (dent_start <? d_end))
     || negb ((d_start <=? dent_end) && (dent_end <=? d_end))
  then Raise (IndexError "directory entry out of range")
  else Ok (dent_start, dent_end).

Definition granule_map_range (self : t) : outcome (Z * Z) :=
  r ← sector_range self (directory_track (geom self)) 2 1;
  let start := fst r in
  gc ← granule_count self;
  Ok (start, start + Z.min gc (max_granules (geom self))).

(** [os.pread] gives what the file has from [offset] on, at most [length_]
    bytes; a negative length or offset is EINVAL. *)
Definition pread (self : t) (length_ offset : Z) : outcome (list byte) :=
  if (length_ <? 0) || (offset <? 0) then Raise OSError
  else
    let data := take (Z.to_nat length_) (drop (Z.to_nat offset) (io self)) in
    _ ← py_assert (len data =? length_);
    Ok data.

Definition read_granule_map (self : t) : outcome (list byte) :=
  '(start, end_) ← granule_map_range self;
  pread self (end_ - start) start.

Definition read_directory_entry (self : t) (n : Z) : outcome (list byte) :=
  '(start, end_) ← directory_entry_range self n;
  pread self (end_ - start) start.

Definition read_granule (self : t) (n : Z) : outcome (list byte) :=
  '(gmap_start, gmap_end) ← granule_map_range self;
  let start := gmap_start + n in
  let end_ := start + 1 in
  if negb ((gmap_start <=? start) && (start <? gmap_end))
     || negb ((gmap_start <=? end_) && (end_ <=? gmap_end))
  then Raise (IndexError ("granule number out of range: " +:+ pretty n))
  else pread self (end_ - start) start.

(** The body of the loop of [count_granules], from index [i] on. *)
Fixpoint count_granules_from (self : t) (i : Z) (gmap : list byte)
    (counts : Z * Z * Z) : outcome (Z * Z * Z) :=
  match gmap with
  | [] => Ok counts
  | c :: rest =>
      let '(total_count, free_count, used_count) := counts in
      gi ← GranuleInfo.fromraw i (RawInt (byte_val c))
             (bytes_per_sector (geom self)) (geom self);
      let '(free_count, used_count) :=
        if GranuleInfo.free gi then (free_count + 1, used_count)
        else (free_count, used_count + 1) in
      count_granules_from self (i + 1) rest (total_count + 1, free_count, used_count)
  end.

Definition count_granules (self : t) : outcome (Z * Z * Z) :=
  gmap ← read_granule_map self;
  count_granules_from self 0 gmap (0, 0, 0).

(** The loop of [iter_directory_entries] over the slots [slots]. *)
Fixpoint iter_directory_entries_over (self : t) (include_free : bool)
    (slots : list Z) : generator DirectoryEntry.t :=
  match slots with
  | [] => gen_end (Ok tt)
  | i :: rest =>
      match (raw ← read_directory_entry self i;
             DirectoryEntry.fromraw i raw (geom self)) with
      | Ok dentry =>
          if DirectoryEntry.null dentry then
            iter_directory_entries_over self include_free rest
          else if DirectoryEntry.free dentry && negb include_free then
            iter_directory_entries_over self include_free rest
          else gen_yield dentry (iter_directory_entries_over self include_free rest)
      | Raise e => gen_end (Raise e)
      | Diverge => gen_end Diverge
      end
  end.

Definition iter_directory_entries (self : t) (include_free : bool)
    : generator DirectoryEntry.t :=
  iter_directory_entries_over self include_free
    (seqZ 0 (max_directory_entries (geom self))).

Definition count_directory_entries (self : t) : outcome (Z * Z * Z) :=
  let g := iter_directory_entries self true in
  let counts :=
    foldl (fun '(total_count, free_count, used_count) dentry =>
             if DirectoryEntry.free dentry
             then (total_count + 1, free_count + 1, used_count)
             else (total_count + 1, free_count, used_count + 1))
          (0, 0, 0) (yielded g) in
  _ ← ending g;
  Ok counts.

(** The [while True] loop of [iter_granules]; each turn spends one unit of
    [fuel]. *)
Fixpoint iter_granules_loop (self : t) (last_sector_bytes_used : Z)
    (fuel : nat) (seen : gset Z) (n : Z) : generator GranuleInfo.t :=
  match fuel with
  | O => gen_end Diverge
  | S fuel' =>
      match (raw_value ← read_granule self n;
             GranuleInfo.fromraw n (RawBytes raw_value)
               last_sector_bytes_used (geom self)) with
      | Ok gi =>
          gen_yield gi
            (let seen := seen ∪ {[ n ]} in
             if GranuleInfo.last gi then gen_end (Ok tt)
             else
               match GranuleInfo.next_n gi with
               | None => gen_end (Raise TypeError)
               | Some n' =>
                   if bool_decide (n' ∈ seen)
                   then gen_end (Raise (RecoverableCorruption LoopInGranuleMap))
                   else iter_granules_loop self last_sector_bytes_used fuel' seen n'
               end)
      | Raise e => gen_end (Raise e)
      | Diverge => gen_end Diverge
      end
  end.

(** One turn per entry of the allocation map, and one more to fail in. *)
Definition iter_granules_fuel (self : t) : nat :=
  S (Z.to_nat (max_granules (geom self))).

Definition iter_granules (self : t) (first_granule last_sector_bytes_used : Z)
    : generator GranuleInfo.t :=
  iter_granules_loop self last_sector_bytes_used (iter_granules_fuel self)
    ∅ first_granule.

Definition iter_dentry_granules (self : t) (dentry : DirectoryEntry.t)
    : generator GranuleInfo.t :=
  iter_granules self (DirectoryEntry.first_granule dentry)
    (DirectoryEntry.last_sector_bytes_used dentry).

Definition compute_file_offset (self : t) (dentry : DirectoryEntry.t) (offset : Z)
    : Z * Z * Z :=
  let granule_bytes := bytes_per_sector (geom self) * sectors_per_granule (geom self) in
  let '(granule_offset, x) := (offset / granule_bytes, offset mod granule_bytes) in
  let '(sector_offset, byte_offset) :=
    (x / bytes_per_sector (geom self), x mod bytes_per_sector (geom self)) in
  (granule_offset, sector_offset, byte_offset).

(** The [for gi in ...] loop of [iter_file_contents] over the entries [gis]
    the walk yields; [fin] is how the walk ends after them. *)
Fixpoint iter_file_contents_over (self : t) (g0 b0 : Z)
    (gis : list GranuleInfo.t) (fin : outcome unit)
    (bytes_remaining : option Z) : generator (list byte) :=
  match gis with
  | [] => gen_end fin
  | gi :: rest =>
      if GranuleInfo.free gi then gen_end (Raise AssertionError)
      else if GranuleInfo.n gi <? g0 then
        iter_file_contents_over self g0 b0 rest fin bytes_remaining
      else
        let '(sec_start, sec_end) := granule_range_sectors self (GranuleInfo.n gi) in
        let '(start, end_) :=
          sector_range_linear self sec_start (GranuleInfo.sectors_used gi) in
        match pread self (end_ - start) start with
        | Ok data =>
            let data := slice_to data (GranuleInfo.bytes_used gi) in
            let data := if GranuleInfo.n gi =? g0 then slice_from data b0 else data in
            match bytes_remaining with
            | Some r =>
                let data := if len data >? r then slice_to data r else data in
                gen_yield data
                  (iter_file_contents_over self g0 b0 rest fin (Some (r - len data)))
            | None =>
                (* [bytes_remaining -= len(data)] on [None] *)
                gen_yield data (gen_end (Raise TypeError))
            end
        | Raise e => gen_end (Raise e)
        | Diverge => gen_end Diverge
        end
  end.

Definition iter_file_contents (self : t) (dentry : DirectoryEntry.t)
    (length_ : option Z) (offset : Z) : generator (list byte) :=
  let granule_bytes := bytes_per_sector (geom self) * sectors_per_granule (geom self) in
  let '(g0, b0) := (offset / granule_bytes, offset mod granule_bytes) in
  let bytes_remaining := length_ in
  let walk := iter_dentry_granules self dentry in
  iter_file_contents_over self g0 b0 (yielded walk) (ending walk) bytes_remaining.

Definition pread_file (self : t) (dentry : DirectoryEntry.t) (length_ offset : Z)
    : outcome (list byte) :=
  let g := iter_file_contents self dentry (Some length_) offset in
  _ ← ending g;
  Ok (concat (yielded g)).

Definition pretty_filename (dentry : DirectoryEntry.t) : list Z :=
  decode_tandycoco (DirectoryEntry.pretty_filename_bytes dentry).

(** [name] is a [str], here the list of its code points.  The loop returns
    at the first match and looks at the rest of the directory, and at how
    the enumeration ends, only when there is none. *)
Definition directory_lookup (self : t) (name : list Z) : outcome (option DirectoryEntry.t) :=
  let g := iter_directory_entries self false in
  match List.find (fun dentry => bool_decide (pretty_filename dentry = name)) (yielded g) with
  | Some dentry => Ok (Some dentry)
  | None => _ ← ending g; Ok None
  end.

Definition get_file_sizes (self : t) (dentry : DirectoryEntry.t) : outcome (Z * Z * Z) :=
  let g := iter_dentry_granules self dentry in
  let '(logical_size, allocated_granules) :=
    foldl (fun '(logical_size, allocated_granules) gi =>
             (logical_size + GranuleInfo.bytes_used gi, allocated_granules + 1))
          (0, 0) (yielded g) in
  _ ← ending g;
  let allocated_sectors := allocated_granules * sectors_per_granule (geom self) in
  Ok (logical_size, bytes_per_sector (geom self), allocated_sectors).

Definition get_sector_size (self : t) : Z := bytes_per_sector (geom self).

Definition get_directory_size (self : t) : Z :=
  directory_sectors (geom self) * bytes_per_sector (geom self).

(** The names [rsdosfs.py] binds at module level: its imports, [ceildiv]
    and its classes.  None of them is a number. *)
Definition module_globals : list string :=
  [ "dataclass"; "Fuse"; "FuseOptParse"; "Path"; "pack"; "unpack"; "errno";
    "fuse"; "os"; "sys"; "threading"; "warnings"; "getsize64";
    "tandycoco_hires"; "Geometry"; "ceildiv"; "RSDOSFSWarning";
    "OddSizeWarning"; "FilesystemFatalError"; "RecoverableCorruption";
    "DiskFullError"; "DirectoryEntry"; "GranuleInfo"; "FilesystemStats";
    "RSDOSFilesystem" ]%string.

(** Reading a name that is no local variable, as an operand of integer
    arithmetic: a name the module does not bind (and that is no builtin) is
    a [NameError]; one it binds is a class, a function or a module, which
    arithmetic refuses. *)
Definition load_global (globals : list string) (name : string) : outcome Z :=
  if bool_decide (name ∈ globals) then Raise TypeError else Raise (NameError name).

(** The keyword arguments are evaluated in the order they are written;
    [size_in_granules] reads the bare name [sectors_per_granule]. *)
Definition get_fs_stats (self : t) : outcome FilesystemStats :=
  '(g_total, g_free, g_used) ← count_granules self;
  '(d_total, d_free, d_used) ← count_directory_entries self;
  sc ← sector_count self;
  spg ← load_global module_globals "sectors_per_granule";
  Ok {| total_granule_count := g_total;
        free_granule_count := g_free;
        used_granule_count := g_used;
        total_direntry_count := d_total;
        free_direntry_count := d_free;
        used_direntry_count := d_used;
        size_in_granules := ceildiv sc spg;
        fs_sectors_per_track := sectors_per_track (geom self);
        fs_sectors_per_granule := sectors_per_granule (geom self);
        fs_bytes_per_sector := bytes_per_sector (geom self) |}.

End RSDOSFilesystem.

(** ** The write path *)

Module WritableRSDOSFilesystem.

Import Geometry RSDOSFilesystem.

(** [from .rsdosfs import *] binds every public name of [rsdosfs.py]. *)
Definition module_globals : list string :=
  "WritableRSDOSFilesystem"%string :: RSDOSFilesystem.module_globals.

(** [os.pwrite]: the bytes of [buf] replace those at [offset]; a write
    past the end first fills the gap with zero bytes; a write of no byte
    leaves the file as it is. *)
Definition pwrite (self : t) (buf : list byte) (offset : Z) : outcome Z * t :=
  if offset <? 0 then (Raise OSError, self)
  else
    match buf with
    | [] => (Ok 0, self)
    | _ :: _ =>
        let old := io self ++ replicate (Z.to_nat offset - length (io self)) x00 in
        (Ok (len buf),
         Make (take (Z.to_nat offset) old ++ buf ++ drop (Z.to_nat offset + length buf) old))
    end.

(** Called with the lock held, so that [assert self.lock.locked()] passes;
    enumerating the directory takes no lock. *)
Definition _find_free_direntry (self : t) : outcome DirectoryEntry.t :=
  let g := iter_directory_entries self true in
  match List.find DirectoryEntry.free (yielded g) with
  | Some direntry => Ok direntry
  | None => _ ← ending g; Raise DiskFullError
  end.

(** The size probe as it runs for a caller that holds [self.lock] or not:
    on a regular file the ioctl of [_getsize64] fails with ENOTTY and
    [_getsize64_noioctl] enters [with self.lock]; the lock is a
    [threading.Lock], which is not reentrant, so a caller that already holds
    it waits forever. *)
Definition _getsize64_locked (self : t) (lock_held : bool) : outcome Z :=
  if lock_held then Diverge else Ok (len (io self)).

Definition sector_count_locked (self : t) (lock_held : bool) : outcome Z :=
  n ← _getsize64_locked self lock_held;
  let n_sectors := n / bytes_per_sector (geom self) in
  if n_sectors <? (directory_track (geom self) + 1) * sectors_per_track (geom self)
  then Raise FilesystemFatalError
  else Ok n_sectors.

Definition granule_count_locked (self : t) (lock_held : bool) : outcome Z :=
  sc ← sector_count_locked self lock_held;
  let s := sc - sectors_per_track (geom self) in
  Ok (s / sectors_per_granule (geom self)).

Definition granule_map_range_locked (self : t) (lock_held : bool) : outcome (Z * Z) :=
  r ← sector_range self (directory_track (geom self)) 2 1;
  let start := fst r in
  gc ← granule_count_locked self lock_held;
  Ok (start, start + Z.min gc (max_granules (geom self))).

Definition read_granule_map_locked (self : t) (lock_held : bool) : outcome (list byte) :=
  '(start, end_) ← granule_map_range_locked self lock_held;
  pread self (end_ - start) start.

(** [_find_free_granules] runs with the lock held ([assert
    self.lock.locked()]), and reads the allocation map first.  Were the map
    read, the first turn of the loop would read the bare name
    [bytes_per_sector] for the call of [GranuleInfo.fromraw], which also
    lacks the keyword [geom]; on an empty allocation map the [else] of the
    [for] would be reached. *)
Definition _find_free_granules (self : t) (count : Z) : outcome (list Z) :=
  gmap ← read_granule_map_locked self true;
  match gmap with
  | [] => Raise DiskFullError
  | c :: _ =>
      bps ← load_global module_globals "bytes_per_sector";
      Raise TypeError
  end.

(** The body up to [direntry.clear()], a method [DirectoryEntry] does not
    have; no statement after it is ever reached.  [length] is a local
    variable of [write_new_file] only. *)
Definition _write_new_file (self : t) (filename extension : list byte)
    (filetype ascii_flag : Z) (content : list byte) : outcome unit * t :=
  (length_ ← load_global module_globals "length";
   bps ← load_global module_globals "bytes_per_sector";
   spg ← load_global module_globals "sectors_per_granule";
   let granules_needed := ceildiv length_ (bps * spg) in
   granules ← _find_free_granules self granules_needed;
   direntry ← _find_free_direntry self;
   Raise AttributeError,
   self).

Definition write_new_file (self : t) (filename extension : list byte)
    (filetype ascii_flag : Z) (content : list byte) : outcome unit * t :=
  let length_ := len content in
  _write_new_file self filename extension filetype ascii_flag content.

End WritableRSDOSFilesystem.

(** ** Disk images used in the examples *)

(** [bs] written over [img] at [offset]. *)
Definition put (offset : Z) (bs : list byte) (img : list byte) : list byte :=
  take (Z.to_nat offset) img ++ bs ++ drop (Z.to_nat offset + length bs) img.

(** Where the allocation map (track 17, sector 2) and the directory (track 17,
    sector 3) start. *)
Definition gmap_offset : Z := (17 * 18 + 1) * 256.
Definition directory_offset : Z := (17 * 18 + 2) * 256.

(** A formatted 35-track disk: 630 sectors of [0xff]. *)
Definition blank_disk : list byte := replicate (Z.to_nat (630 * 256)) xff.

(** Extent 5 points to extent 9, which points back to extent 5. *)
Definition cycle_disk : list byte :=
  put (gmap_offset + 5) [x09] (put (gmap_offset + 9) [x05] blank_disk).

(** Extent 5 points to extent 9, which is free. *)
Definition dangling_disk : list byte :=
  put (gmap_offset + 5) [x09] blank_disk.

(** The 32 bytes of the directory entry of HELLO.TXT: first extent 1, 100
    bytes used in the last sector. *)
Definition hello_raw : list byte :=
  [x48; x45; x4c; x4c; x4f; x20; x20; x20; x54; x58; x54; x00; x00; x01; x00; x64]
  ++ replicate 16 x00.

(** HELLO.TXT in slot 0: one extent, number 1, of which 3 sectors are used
    (code [0xc3]); the extent holds the letter A throughout. *)
Definition hello_disk : list byte :=
  put directory_offset hello_raw
    (put (gmap_offset + 1) [xc3]
       (put 2304 (replicate 2304 x41) blank_disk)).

Definition hello_dentry : DirectoryEntry.t :=
  DirectoryEntry.Make 0 [x48; x45; x4c; x4c; x4f; x20; x20; x20] [x54; x58; x54]
    0 0 1 100 (replicate 16 x00) false false.

(** "HELLO.TXT" as code points *)
Definition hello_name : list Z := [72; 69; 76; 76; 79; 46; 84; 88; 84].

(** ** Vocabulary of the statements *)

(** The entry of extent [n], as a turn of the loop of [iter_granules] reads
    and decodes it. *)
Definition entry_at (self : RSDOSFilesystem.t) (last_sector_bytes_used n : Z)
    : outcome GranuleInfo.t :=
  raw_value ← RSDOSFilesystem.read_granule self n;
  GranuleInfo.fromraw n (RawBytes raw_value) last_sector_bytes_used
    (RSDOSFilesystem.geom self).

(** [gis] is a stretch of the chain that starts at extent [n]: each entry is
    the one the allocation map has for its extent, and each but the last is a
    continuation entry that names the extent of the following one. *)
Fixpoint chain (self : RSDOSFilesystem.t) (last_sector_bytes_used n : Z)
    (gis : list GranuleInfo.t) : Prop :=
  match gis with
  | [] => True
  | gi :: rest =>
      entry_at self last_sector_bytes_used n = Ok gi /\
      match rest with
      | [] => True
      | _ :: _ =>
          GranuleInfo.last gi = false /\
          exists n', GranuleInfo.next_n gi = Some n'
                     /\ chain self last_sector_bytes_used n' rest
      end
  end.

(** The bytes of the image that extent [n] occupies, cut to [used] bytes. *)
Definition extent_content (self : RSDOSFilesystem.t) (n used : Z) : list byte :=
  take (Z.to_nat used)
    (drop (Z.to_nat (fst (RSDOSFilesystem.granule_range self n)))
       (RSDOSFilesystem.io self)).

(** The sum of the [bytes_used] of the entries [gis]. *)
Definition total_bytes_used (gis : list GranuleInfo.t) : Z :=
  foldr (fun gi acc => GranuleInfo.bytes_used gi + acc) 0 gis.

(** An allocation-map byte that [count_granules] can decode: any code but
    [0xc0] and the codes from [0xca] to [0xfe]. *)
Definition map_code_ok (b : byte) : bool :=
  negb (byte_val b =? 0xc0) && negb ((0xca <=? byte_val b) && (byte_val b <=? 0xfe)).

(** The number of free codes ([0xff]) in an allocation map. *)
Definition count_free (gmap : list byte) : Z :=
  len (filter (fun b => byte_val b = 0xff) gmap).

(** A disk whose extent 3 holds an empty file: terminal code [0xc0]. *)
Definition empty_file_disk : list byte :=
  put (gmap_offset + 3) [xc0] blank_disk.

(** An image of 630 sectors of zero bytes. *)
Definition zero_disk : list byte := replicate (Z.to_nat (630 * 256)) x00.

(** The free entry that slot 0 of a blank disk decodes to. *)
Definition blank_dentry_0 : DirectoryEntry.t :=
  DirectoryEntry.Make 0 (replicate 8 xff) (replicate 3 xff) 255 255 255 65535
    (replicate 16 xff) true false.

(** A directory entry whose chain starts at extent 5 of [dangling_disk]. *)
Definition dangling_dentry : DirectoryEntry.t :=
  DirectoryEntry.Make 0 [x48; x45; x4c; x4c; x4f; x20; x20; x20] [x54; x58; x54]
    0 0 5 0 (replicate 16 x00) false false.




(** ** The chain and the directory as the image has them *)

(** The byte that the image holds for extent [n] in its allocation map: the
    map starts at track 17, sector 2 and has one byte for each extent of the
    image, at most 192; an image of less than 18 tracks has none. *)
Definition map_byte (self : RSDOSFilesystem.t) (n : Z) : option byte :=
  let size := len (RSDOSFilesystem.io self) in
  if (82944 <=? size) && (0 <=? n) && (n <? Z.min ((size / 256 - 18) / 9) 192)
  then RSDOSFilesystem.io self !! Z.to_nat (gmap_offset + n)
  else None.

Definition map_code (self : RSDOSFilesystem.t) (n : Z) : option Z :=
  byte_val <$> map_byte self n.

(** The chain of a file in the allocation map of the image: the code of
    extent [n] is the number of the extent that follows it, the head of
    [rest], and so on through [rest]; the code of the last extent is
    [final], which is no extent number. *)
Fixpoint disk_chain (self : RSDOSFilesystem.t) (n : Z) (rest : list Z) (final : Z)
    : Prop :=
  match rest with
  | [] => map_code self n = Some final /\ 0xc0 <= final
  | n' :: rest' =>
      map_code self n = Some n' /\ n' < 0xc0 /\ disk_chain self n' rest' final
  end.


Definition image_bytes (self : RSDOSFilesystem.t) (offset count : Z) : list byte :=
  take (Z.to_nat count) (drop (Z.to_nat offset) (RSDOSFilesystem.io self)).

(** The bytes the last extent of a chain holds when its code is [final]: the
    sectors before the last one in full and [last_sector_bytes_used] of the
    last one for a terminal code from [0xc1] to [0xc9], none otherwise. *)
Definition tail_bytes (final last_sector_bytes_used : Z) : Z :=
  if (0xc1 <=? final) && (final <=? 0xc9)
  then (final - 0xc1) * 256 + last_sector_bytes_used
  else 0.


(** The entries that the chain [n :: rest] with last code [final] decodes
    to. *)
Definition continuation_entry (n n' : Z) : GranuleInfo.t :=
  GranuleInfo.Make n' n (Some n') 9 2304 false false Geometry.default.

Definition final_entry (n final last_sector_bytes_used : Z) : GranuleInfo.t :=
  if final =? 0xff
  then GranuleInfo.Make final n None 0 0 true true Geometry.default
  else GranuleInfo.Make final n None (final - 0xc0)
         (tail_bytes final last_sector_bytes_used) true false Geometry.default.

Fixpoint disk_chain_entries (n : Z) (rest : list Z) (final last_sector_bytes_used : Z)
    : list GranuleInfo.t :=
  match rest with
  | [] => [final_entry n final last_sector_bytes_used]
  | n' :: rest' =>
      continuation_entry n n'
      :: disk_chain_entries n' rest' final last_sector_bytes_used
  end.

(** The 32 bytes of directory slot [i] in the image. *)
Definition slot_bytes (self : RSDOSFilesystem.t) (i : Z) : list byte :=
  image_bytes self (directory_offset + 32 * i) 32.

(** The number of directory slots that lie in the image in full. *)
Definition slots_present (self : RSDOSFilesystem.t) : Z :=
  Z.max 0 (Z.min 72 ((len (RSDOSFilesystem.io self) - directory_offset) / 32)).

(** A slot is null when all its bytes are zero, and free when its file name
    starts with a zero byte or is [0xff] throughout. *)
Definition slot_null (self : RSDOSFilesystem.t) (i : Z) : bool :=
  forallb (fun b => byte_val b =? 0) (slot_bytes self i).

Definition slot_free (self : RSDOSFilesystem.t) (i : Z) : bool :=
  match slot_bytes self i with
  | b :: _ => byte_val b =? 0
  | [] => false
  end
  || forallb (fun b => byte_val b =? 0xff) (take 8 (slot_bytes self i)).

(** The slots an enumeration shows. *)
Definition slot_visible (self : RSDOSFilesystem.t) (include_free : bool) (i : Z)
    : bool :=
  negb (slot_null self i) && (include_free || negb (slot_free self i)).

(** A file of two extents that are not in disk order: extent 5 (the letter A
    throughout) continues to extent 2 (the letter B), of which 2 sectors are
    used. *)
Definition split_disk : list byte :=
  put (gmap_offset + 5) [x02]
    (put (gmap_offset + 2) [xc2]
       (put (5 * 2304) (replicate 2304 x41)
          (put (2 * 2304) (replicate 2304 x42) blank_disk))).

(** Its directory entry: first extent 5, 10 bytes used in the last sector. *)
Definition split_dentry : DirectoryEntry.t :=
  DirectoryEntry.Make 0 [x48; x45; x4c; x4c; x4f; x20; x20; x20] [x54; x58; x54]
    0 0 5 10 (replicate 16 x00) false false.

(** A directory whose slot 0 is null, whose slot 1 was never used and whose
    slot 2 holds HELLO.TXT. *)
Definition gap_disk : list byte :=
  put directory_offset (replicate 32 x00)
    (put (directory_offset + 64) hello_raw
       (put (gmap_offset + 1) [xc3]
          (put 2304 (replicate 2304 x41) blank_disk))).

Definition gap_dentry : DirectoryEntry.t :=
  DirectoryEntry.Make 2 [x48; x45; x4c; x4c; x4f; x20; x20; x20] [x54; x58; x54]
    0 0 1 100 (replicate 16 x00) false false.

(** * Properties *)

Import Geometry RSDOSFilesystem.

#[global] Arguments iter_granules : simpl never.
#[global] Arguments iter_dentry_granules : simpl never.
#[global] Arguments iter_directory_entries : simpl never.
#[global] Arguments count_granules : simpl never.
#[global] Arguments count_directory_entries : simpl never.
#[global] Arguments sector_count : simpl never.

(** ** Address translation *)

(** C8: [granule_range_sectors] gives the sectors [9g, 9g+9) of extent [g]
    while [9g] is below sector 306, the start of the directory track, and
    [9g+18, 9g+27) from there on; no extent shares a sector with the
    directory track, sectors 306 to 323. *)
Theorem granule_range_sectors_skips_directory_track (self : t) (g : Z) :
  0 <= g ->
  (9 * g < 17 * 18 -> granule_range_sectors self g = (9 * g, 9 * g + 9)) /\
  (17 * 18 <= 9 * g -> granule_range_sectors self g = (9 * g + 18, 9 * g + 27)) /\
  (snd (granule_range_sectors self g) <= 306 \/ 324 <= fst (granule_range_sectors self g)).
Proof.
  intros Hg. unfold granule_range_sectors. cbn. change (17 * 18) with 306.
  destruct (Z.geb_spec (g * 9) 306) as [Hge | Hlt]; cbn.
  - split; [lia |]. split; [intros _; f_equal; lia | right; lia].
  - split; [intros _; f_equal; lia |]. split; [lia | left; lia].
Qed.

Lemma granule_range_sectors_skips_directory_track_witness :
  granule_range_sectors (Make []) 33 = (297, 306) /\
  granule_range_sectors (Make []) 34 = (324, 333).
Proof.
  pose proof (granule_range_sectors_skips_directory_track (Make []) 33 ltac:(lia)) as H33.
  pose proof (granule_range_sectors_skips_directory_track (Make []) 34 ltac:(lia)) as H34.
  split.
  - apply (proj1 H33). lia.
  - apply (proj1 (proj2 H34)). lia.
Defined.

(** ** Decoding an allocation-map entry *)

Lemma byte_val_range (x : byte) : 0 <= byte_val x < 256.
Proof.
  unfold byte_val. pose proof (Byte.to_N_bounded x). lia.
Qed.

Lemma the_byte_range (raw : raw_arg) (b : Z) :
  GranuleInfo.the_byte raw = Ok b -> 0 <= b < 256.
Proof.
  destruct raw as [v | [| x [| y bs]]]; cbn; try discriminate.
  - destruct (Z.leb_spec 0 v), (Z.ltb_spec v 256); cbn; try discriminate.
    intros [= <-]. lia.
  - intros [= <-]. apply byte_val_range.
Qed.

Lemma the_byte_of_bytes (x : byte) :
  GranuleInfo.the_byte (RawBytes [x]) = GranuleInfo.the_byte (RawInt (byte_val x)).
Proof.
  cbn. pose proof (byte_val_range x) as Hx.
  destruct (Z.leb_spec 0 (byte_val x)), (Z.ltb_spec (byte_val x) 256); cbn; (reflexivity || lia).
Qed.

(** What [fromraw] gives once the byte [b] is known, by the range [b] is in. *)
Lemma fromraw_cases (n : Z) (raw : raw_arg) (b lsbu : Z) (geom : Geometry.t) :
  GranuleInfo.the_byte raw = Ok b ->
  GranuleInfo.fromraw n raw lsbu geom =
    if b <? 0xc0 then
      Ok (GranuleInfo.Make b n (Some b) (sectors_per_granule geom)
            (sectors_per_granule geom * bytes_per_sector geom) false false geom)
    else if b <=? 0xc9 then
      _ ← py_assert (Z.land b 0xf <=? sectors_per_granule geom);
      bytes_used ←
        (if Z.land b 0xf =? 0 then _ ← py_assert (lsbu =? 0); Ok 0
         else Ok ((Z.land b 0xf - 1) * bytes_per_sector geom + lsbu));
      Ok (GranuleInfo.Make b n None (Z.land b 0xf) bytes_used true false geom)
    else if b =? 0xff then Ok (GranuleInfo.Make b n None 0 0 true true geom)
    else Raise (RecoverableCorruption (GranuleOutOfRange n b)).
Proof.
  intros Hb. pose proof (the_byte_range _ _ Hb) as Hr.
  unfold GranuleInfo.fromraw. rewrite Hb. cbn.
  destruct (Z.leb_spec 0 b); [| lia].
  destruct (Z.ltb_spec b 192); cbn; [reflexivity |].
  destruct (Z.leb_spec 192 b); [| lia]. cbn. reflexivity.
Qed.

(** The low nibble of a terminal code is the code less [0xc0]. *)
Lemma terminal_low_nibble (b : Z) : 0xc0 <= b <= 0xc9 -> Z.land b 0xf = b - 0xc0.
Proof.
  intros Hb.
  assert (b = 192 \/ b = 193 \/ b = 194 \/ b = 195 \/ b = 196 \/ b = 197
          \/ b = 198 \/ b = 199 \/ b = 200 \/ b = 201) as Hc by lia.
  repeat (destruct Hc as [-> | Hc]; [reflexivity |]). subst b. reflexivity.
Qed.

(** C4, as the code has it: [GranuleInfo.fromraw] decodes a byte below [0xc0]
    as a continuation entry (next extent = the byte, 9 sectors, 2304 bytes); a
    byte from [0xc1] to [0xc9] as a terminal entry with sectors_used = the low
    nibble and bytes_used = (sectors_used - 1) * 256 + last_sector_bytes_used;
    [0xc0] with [last_sector_bytes_used = 0] as a terminal entry of 0 sectors
    and 0 bytes; [0xff] as a free entry; and every byte from [0xca] to [0xfe]
    raises [RecoverableCorruption] carrying the index and the value. *)
Theorem fromraw_decoding_table (n : Z) (raw : raw_arg) (b lsbu : Z) :
  GranuleInfo.the_byte raw = Ok b ->
  let r := GranuleInfo.fromraw n raw lsbu Geometry.default in
  (0 <= b < 0xc0 ->
     r = Ok (GranuleInfo.Make b n (Some b) 9 2304 false false Geometry.default)) /\
  (0xc0 < b <= 0xc9 ->
     r = Ok (GranuleInfo.Make b n None (Z.land b 0xf)
               ((Z.land b 0xf - 1) * 256 + lsbu) true false Geometry.default)
     /\ 0 < Z.land b 0xf <= 9) /\
  (b = 0xc0 -> lsbu = 0 ->
     r = Ok (GranuleInfo.Make b n None 0 0 true false Geometry.default)) /\
  (b = 0xff ->
     r = Ok (GranuleInfo.Make b n None 0 0 true true Geometry.default)) /\
  (0xca <= b <= 0xfe ->
     r = Raise (RecoverableCorruption (GranuleOutOfRange n b))).
Proof.
  intros Hb r. subst r. rewrite (fromraw_cases _ _ _ _ _ Hb).
  repeat split.
  - intros Hr. destruct (Z.ltb_spec b 192); [reflexivity | lia].
  - destruct (Z.ltb_spec b 192); [lia |].
    destruct (Z.leb_spec b 201); [| lia].
    rewrite terminal_low_nibble by lia. cbn.
    destruct (Z.leb_spec (b - 192) 9); [| lia].
    destruct (Z.eqb_spec (b - 192) 0); [lia |]. reflexivity.
  - rewrite terminal_low_nibble by lia. lia.
  - rewrite terminal_low_nibble by lia. lia.
  - intros -> ->. reflexivity.
  - intros ->. reflexivity.
  - intros Hr. destruct (Z.ltb_spec b 192); [lia |].
    destruct (Z.leb_spec b 201); [lia |].
    destruct (Z.eqb_spec b 255); [lia |]. reflexivity.
Qed.

(** The scenario of the specification: byte [0xc3] with 100 bytes used in the
    last sector is a terminal entry of 3 sectors and 612 bytes. *)
Lemma fromraw_decoding_table_witness :
  GranuleInfo.fromraw 4 (RawBytes [xc3]) 100 Geometry.default
  = Ok (GranuleInfo.Make 0xc3 4 None 3 612 true false Geometry.default)
  /\ GranuleInfo.fromraw 4 (RawInt 0xfe) 100 Geometry.default
     = Raise (RecoverableCorruption (GranuleOutOfRange 4 0xfe)).
Proof.
  split.
  - apply (fromraw_decoding_table 4 (RawBytes [xc3]) 0xc3 100 eq_refl). lia.
  - apply (fromraw_decoding_table 4 (RawInt 0xfe) 0xfe 100 eq_refl). lia.
Defined.

(** C4 as the specification words it fails: [0xca] is no terminal entry but
    a corruption, and [0xc0] with a nonzero [last_sector_bytes_used] stops at
    the assertion instead of giving 0 bytes. *)
Lemma fromraw_0xca_is_corruption :
  ~ (exists gi, GranuleInfo.fromraw 4 (RawInt 0xca) 100 Geometry.default = Ok gi)
  /\ GranuleInfo.fromraw 4 (RawInt 0xca) 100 Geometry.default
     = Raise (RecoverableCorruption (GranuleOutOfRange 4 0xca))
  /\ GranuleInfo.fromraw 4 (RawInt 0xc0) 100 Geometry.default = Raise AssertionError.
Proof.
  split; [| split]; [| reflexivity | reflexivity].
  intros [gi Hgi]. discriminate Hgi.
Qed.

(** ** Enumerating the directory *)

Lemma byte_val_inj (x y : byte) : byte_val x = byte_val y -> x = y.
Proof.
  unfold byte_val. intros H. apply N2Z.inj in H.
  pose proof (Byte.of_to_N x) as Hx. pose proof (Byte.of_to_N y) as Hy.
  rewrite H in Hx. congruence.
Qed.

(** [set(bs) == {v}] says that [bs] is not empty and holds [v] only. *)
Lemma set_is_spec (bs : list byte) (v : byte) :
  DirectoryEntry.set_is bs (byte_val v) = true <-> bs <> [] /\ Forall (fun b => b = v) bs.
Proof.
  unfold DirectoryEntry.set_is. rewrite bool_decide_eq_true. split.
  - intros H. split.
    + intros ->. cbn in H. set_solver.
    + apply Forall_forall. intros b Hb. apply byte_val_inj.
      assert (byte_val b ∈ (list_to_set (byte_val <$> bs) : gset Z)) as Hin.
      { apply elem_of_list_to_set, list_elem_of_fmap. eauto. }
      rewrite H in Hin. set_solver.
  - intros [Hne Hall]. apply set_eq. intros z.
    rewrite elem_of_list_to_set, list_elem_of_fmap, elem_of_singleton. split.
    + intros (b & -> & Hb). rewrite Forall_forall in Hall. by rewrite (Hall b Hb).
    + intros ->. destruct bs as [| b bs]; [done |].
      exists b. split; [| left]. by rewrite (Forall_inv Hall).
Qed.

Lemma seqZ_sorted (k : nat) (m : Z) : StronglySorted Z.lt (seqZ m (Z.of_nat k)).
Proof.
  revert m. induction k as [| k IH]; intros m.
  - rewrite seqZ_nil by lia. constructor.
  - rewrite seqZ_cons by lia. constructor.
    + replace (Z.pred (Z.of_nat (S k))) with (Z.of_nat k) by lia. apply IH.
    + apply Forall_seqZ. lia.
Qed.

Lemma bind_Ok {A B : Type} (m : outcome A) (k : A -> outcome B) (b : B) :
  m ≫= k = Ok b <-> exists a, m = Ok a /\ k a = Ok b.
Proof.
  destruct m as [a | e |]; cbn; split; try discriminate; eauto.
  - intros (a' & [= <-] & Hk). exact Hk.
  - intros (a' & Hm & _). discriminate.
  - intros (a' & Hm & _). discriminate.
Qed.

Lemma fromraw_n (i : Z) (raw : list byte) (geom : Geometry.t) (d : DirectoryEntry.t) :
  DirectoryEntry.fromraw i raw geom = Ok d -> DirectoryEntry.n d = i.
Proof.
  unfold DirectoryEntry.fromraw.
  destruct (negb (len raw =? 32)); [discriminate |]. by intros [= <-].
Qed.

(** What the loop over the slots yields: entries decoded from their slots,
    none of them null, none of them free unless asked for. *)
Lemma iter_directory_entries_over_spec (self : t) (include_free : bool) (slots : list Z) :
  Forall (fun d =>
            DirectoryEntry.n d ∈ slots /\
            (exists raw, read_directory_entry self (DirectoryEntry.n d) = Ok raw
                         /\ DirectoryEntry.fromraw (DirectoryEntry.n d) raw (geom self) = Ok d)
            /\ DirectoryEntry.null d = false
            /\ (include_free = false -> DirectoryEntry.free d = false))
         (yielded (iter_directory_entries_over self include_free slots)).
Proof.
  induction slots as [| i rest IH]; [constructor |].
  assert (Forall (fun d =>
            DirectoryEntry.n d ∈ i :: rest /\
            (exists raw, read_directory_entry self (DirectoryEntry.n d) = Ok raw
                         /\ DirectoryEntry.fromraw (DirectoryEntry.n d) raw (geom self) = Ok d)
            /\ DirectoryEntry.null d = false
            /\ (include_free = false -> DirectoryEntry.free d = false))
         (yielded (iter_directory_entries_over self include_free rest))) as IH'.
  { eapply Forall_impl; [exact IH |]. cbn. intros d (Hin & Hrest). split; [by right | done]. }
  cbn [iter_directory_entries_over].
  destruct (read_directory_entry self i ≫= _) as [d | e |] eqn:Hd; [| constructor ..].
  apply bind_Ok in Hd as (raw & Hread & Hd). pose proof (fromraw_n _ _ _ _ Hd) as Hn.
  destruct (DirectoryEntry.null d) eqn:Hnull; [exact IH' |].
  destruct (DirectoryEntry.free d && negb include_free) eqn:Hfree; [exact IH' |].
  constructor; [| exact IH']. rewrite Hn. split; [by left |].
  split; [by exists raw |]. split; [done |].
  intros ->. by destruct (DirectoryEntry.free d).
Qed.

(** The entries come in the order of the slots. *)
Lemma iter_directory_entries_over_sorted (self : t) (include_free : bool) (slots : list Z) :
  StronglySorted Z.lt slots ->
  StronglySorted Z.lt
    (DirectoryEntry.n <$> yielded (iter_directory_entries_over self include_free slots)).
Proof.
  induction slots as [| i rest IH]; intros Hs; [constructor |].
  apply StronglySorted_cons in Hs as [Hlt Hs]. specialize (IH Hs).
  cbn [iter_directory_entries_over].
  destruct (read_directory_entry self i ≫= _) as [d | e |] eqn:Hd; [| constructor ..].
  apply bind_Ok in Hd as (raw & Hread & Hd). pose proof (fromraw_n _ _ _ _ Hd) as Hn.
  destruct (DirectoryEntry.null d); [exact IH |].
  destruct (DirectoryEntry.free d && negb include_free); [exact IH |].
  cbn. constructor; [exact IH |]. rewrite Hn.
  apply Forall_fmap, Forall_forall. intros d' Hd'. cbn.
  pose proof (iter_directory_entries_over_spec self include_free rest) as Hspec.
  rewrite Forall_forall in Hspec. destruct (Hspec d' Hd') as (Hin & _).
  rewrite Forall_forall in Hlt. by apply Hlt.
Qed.

(** What the decoded flags say about the 32 bytes of a slot. *)
Lemma fromraw_flags (i : Z) (raw : list byte) (geom : Geometry.t) (d : DirectoryEntry.t) :
  DirectoryEntry.fromraw i raw geom = Ok d ->
  length raw = 32%nat
  /\ DirectoryEntry.filename d = take 8 raw
  /\ (DirectoryEntry.null d = false -> ~ Forall (fun b => b = x00) raw)
  /\ (DirectoryEntry.free d = false ->
      ~ Forall (fun b => b = xff) (DirectoryEntry.filename d)
      /\ head (DirectoryEntry.filename d) <> Some x00).
Proof.
  unfold DirectoryEntry.fromraw.
  destruct (Z.eqb_spec (len raw) 32) as [Hlen | Hlen]; cbn; [| discriminate].
  intros [= <-]. cbn. unfold len in Hlen.
  split; [lia |]. split; [unfold slice; by rewrite drop_0 |]. split.
  - intros Hnull Hall. assert (raw <> []) as Hne by (intros ->; cbn in Hlen; lia).
    change 0 with (byte_val x00) in Hnull.
    pose proof (proj2 (set_is_spec raw x00) (conj Hne Hall)). congruence.
  - intros Hfree. apply orb_false_iff in Hfree as [Hfirst Hff].
    unfold slice in *.
    destruct raw as [| b0 raw]; [cbn in Hlen; lia |].
    change (drop (Z.to_nat 0) (take (Z.to_nat 8) (b0 :: raw)))
      with (b0 :: take 7 raw) in *.
    cbn [nth head] in *. split.
    + intros Hall. change 255 with (byte_val xff) in Hff.
      assert (b0 :: take 7 raw <> []) as Hne by done.
      pose proof (proj2 (set_is_spec (b0 :: take 7 raw) xff) (conj Hne Hall)). congruence.
    + intros [= ->]. discriminate Hfirst.
Qed.

(** ** Reading the backing image *)

Lemma pread_Ok (self : t) (k offset : Z) (data : list byte) :
  pread self k offset = Ok data ->
  0 <= k /\ 0 <= offset /\ len data = k
  /\ data = take (Z.to_nat k) (drop (Z.to_nat offset) (io self)).
Proof.
  unfold pread.
  destruct (Z.ltb_spec k 0), (Z.ltb_spec offset 0); cbn; try discriminate.
  destruct (Z.eqb_spec (len (take (Z.to_nat k) (drop (Z.to_nat offset) (io self)))) k);
    cbn; [| discriminate].
  intros [= <-]. done.
Qed.

Lemma pread_inside (self : t) (k offset : Z) :
  0 <= k -> 0 <= offset -> offset + k <= len (io self) ->
  pread self k offset = Ok (take (Z.to_nat k) (drop (Z.to_nat offset) (io self))).
Proof.
  intros Hk Ho Hin. unfold pread.
  destruct (Z.ltb_spec k 0), (Z.ltb_spec offset 0); try lia. cbn.
  unfold len in *. rewrite length_take, length_drop.
  destruct (Z.eqb_spec (Z.of_nat (Z.to_nat k `min` (length (io self) - Z.to_nat offset))) k);
    [reflexivity | lia].
Qed.

Lemma pread_not_Diverge (self : t) (k offset : Z) : pread self k offset <> Diverge.
Proof.
  unfold pread, py_assert. repeat case_match; cbn; discriminate.
Qed.

Lemma sector_count_Ok (self : t) (sc : Z) :
  sector_count self = Ok sc -> sc = len (io self) / 256 /\ 324 <= sc.
Proof.
  unfold sector_count, _getsize64. cbn. change ((17 + 1) * 18) with 324.
  destruct (Z.ltb_spec (len (io self) / 256) 324); [discriminate |].
  intros [= <-]. lia.
Qed.

Lemma granule_count_Ok (self : t) (gc : Z) :
  granule_count self = Ok gc ->
  0 <= gc /\ (gc * 9 + 18) * 256 <= len (io self).
Proof.
  unfold granule_count. intros H. apply bind_Ok in H as (sc & Hsc & [= <-]).
  apply sector_count_Ok in Hsc as [-> Hmin]. cbn.
  pose proof (Z.mul_div_le (len (io self)) 256 ltac:(lia)).
  pose proof (Z.mul_div_le (len (io self) / 256 - 18) 9 ltac:(lia)).
  split; [apply Z.div_pos; lia | lia].
Qed.

Lemma granule_map_range_eq (self : t) :
  granule_map_range self =
  (gc ← granule_count self; Ok (gmap_offset, gmap_offset + Z.min gc 192)).
Proof. reflexivity. Qed.

(** A successful [read_granule] is given an index inside the allocation map,
    hence an extent that lies inside the image, and gives one byte. *)
Lemma read_granule_Ok (self : t) (n : Z) (raw : list byte) :
  read_granule self n = Ok raw ->
  (exists gc, granule_count self = Ok gc /\ 0 <= n < Z.min gc 192)
  /\ exists b, raw = [b].
Proof.
  unfold read_granule. rewrite granule_map_range_eq. intros H.
  apply bind_Ok in H as ([gs ge] & Hr & H).
  apply bind_Ok in Hr as (gc & Hgc & [= <- <-]).
  destruct (negb _ || negb _) eqn:Hchk; [discriminate |].
  apply orb_false_iff in Hchk as [H1 H2].
  apply negb_false_iff, andb_true_iff in H1 as [H1a H1b].
  apply pread_Ok in H as (_ & _ & Hlen & _).
  split.
  - exists gc. split; [done |]. lia.
  - unfold len in Hlen. destruct raw as [| b [| b' raw]]; cbn in Hlen; try lia. by exists b.
Qed.

Lemma entry_at_Ok (self : t) (lsbu n : Z) (gi : GranuleInfo.t) :
  entry_at self lsbu n = Ok gi ->
  (exists gc, granule_count self = Ok gc /\ 0 <= n < Z.min gc 192)
  /\ exists b, GranuleInfo.fromraw n (RawBytes [b]) lsbu Geometry.default = Ok gi.
Proof.
  unfold entry_at. intros H. apply bind_Ok in H as (raw & Hraw & Hgi).
  apply read_granule_Ok in Hraw as [Hin [b ->]]. split; [done |]. by exists b.
Qed.

Lemma entry_at_not_Diverge (self : t) (lsbu n : Z) : entry_at self lsbu n <> Diverge.
Proof.
  unfold entry_at. destruct (read_granule self n) as [raw | e |] eqn:Hraw; cbn.
  - unfold GranuleInfo.fromraw, GranuleInfo.the_byte, py_assert.
    repeat (case_match; cbn; try discriminate).
  - discriminate.
  - exfalso. revert Hraw. unfold read_granule. rewrite granule_map_range_eq.
    unfold granule_count, sector_count.
    repeat (case_match; cbn; try discriminate).
    apply pread_not_Diverge.
Qed.

(** ** Walking a chain *)

Lemma iter_granules_loop_S (self : t) (lsbu : Z) (fuel : nat) (seen : gset Z) (n : Z) :
  iter_granules_loop self lsbu (S fuel) seen n =
  match entry_at self lsbu n with
  | Ok gi =>
      gen_yield gi
        (if GranuleInfo.last gi then gen_end (Ok tt)
         else
           match GranuleInfo.next_n gi with
           | None => gen_end (Raise TypeError)
           | Some n' =>
               if bool_decide (n' ∈ seen ∪ {[ n ]})
               then gen_end (Raise (RecoverableCorruption LoopInGranuleMap))
               else iter_granules_loop self lsbu fuel (seen ∪ {[ n ]}) n'
           end)
  | Raise e => gen_end (Raise e)
  | Diverge => gen_end Diverge
  end.
Proof. reflexivity. Qed.

Lemma granule_fromraw_fields (n : Z) (raw : raw_arg) (lsbu : Z) (geom : Geometry.t)
    (gi : GranuleInfo.t) :
  GranuleInfo.fromraw n raw lsbu geom = Ok gi ->
  GranuleInfo.n gi = n
  /\ (GranuleInfo.free gi = true -> GranuleInfo.last gi = true /\ GranuleInfo.raw_value gi = 0xff)
  /\ (GranuleInfo.last gi = false -> GranuleInfo.next_n gi = Some (GranuleInfo.raw_value gi)).
Proof.
  destruct (GranuleInfo.the_byte raw) as [b | e |] eqn:Hb.
  - rewrite (fromraw_cases _ _ _ _ _ Hb). unfold py_assert.
    repeat (case_match; cbn; try discriminate); intros [= <-]; cbn;
      repeat split; try discriminate; try done; lia.
  - unfold GranuleInfo.fromraw. rewrite Hb. discriminate.
  - unfold GranuleInfo.fromraw. rewrite Hb. discriminate.
Qed.

Lemma entry_at_n (self : t) (lsbu n : Z) (gi : GranuleInfo.t) :
  entry_at self lsbu n = Ok gi -> GranuleInfo.n gi = n.
Proof.
  intros H. apply entry_at_Ok in H as [_ [b Hb]].
  by apply granule_fromraw_fields in Hb as [? _].
Qed.

(** A set of indices of the allocation map has at most 192 elements. *)
Lemma seen_size (seen : gset Z) :
  (forall x, x ∈ seen -> 0 <= x < 192) -> (size seen <= 192)%nat.
Proof.
  intros Hin.
  assert (seen ⊆ list_to_set (seqZ 0 192)) as Hsub.
  { intros x Hx. apply elem_of_list_to_set, elem_of_seqZ. specialize (Hin x Hx). lia. }
  apply subseteq_size in Hsub.
  rewrite size_list_to_set in Hsub by apply NoDup_seqZ.
  by rewrite length_seqZ in Hsub.
Qed.

(** The loop ends before its fuel does: every turn that goes on has added
    a new index of the allocation map to [seen]. *)
Lemma iter_granules_loop_terminates (self : t) (lsbu : Z) (fuel : nat) :
  forall (seen : gset Z) (n : Z),
    (forall x, x ∈ seen -> 0 <= x < 192) ->
    n ∉ seen ->
    (192 < size seen + fuel)%nat ->
    ending (iter_granules_loop self lsbu fuel seen n) <> Diverge.
Proof.
  induction fuel as [| fuel IH]; intros seen n Hseen Hn Hfuel.
  - pose proof (seen_size seen Hseen). lia.
  - rewrite iter_granules_loop_S.
    destruct (entry_at self lsbu n) as [gi | e |] eqn:Hgi; cbn; [| discriminate |].
    + destruct (GranuleInfo.last gi); [discriminate |].
      destruct (GranuleInfo.next_n gi) as [n' |]; [| discriminate].
      case_bool_decide as Hn'; [discriminate |].
      apply entry_at_Ok in Hgi as [(gc & _ & Hrange) _].
      apply IH; [| done |].
      * intros x [Hx | Hx]%elem_of_union; [by apply Hseen |].
        apply elem_of_singleton in Hx as ->. lia.
      * assert (seen ## ({[ n ]} : gset Z)) as Hdisj.
        { apply disjoint_singleton_r. exact Hn. }
        rewrite (size_union _ _ Hdisj), size_singleton. lia.
    + by apply entry_at_not_Diverge in Hgi.
Qed.

(** What the loop yields is a stretch of the chain from [n]. *)
Lemma iter_granules_loop_chain (self : t) (lsbu : Z) (fuel : nat) :
  forall (seen : gset Z) (n : Z),
    chain self lsbu n (yielded (iter_granules_loop self lsbu fuel seen n)).
Proof.
  induction fuel as [| fuel IH]; intros seen n; [exact I |].
  rewrite iter_granules_loop_S.
  destruct (entry_at self lsbu n) as [gi | e |] eqn:Hgi; cbn; try exact I.
  split; [done |].
  destruct (GranuleInfo.last gi) eqn:Hlast; cbn; [exact I |].
  destruct (GranuleInfo.next_n gi) as [n' |] eqn:Hnext; cbn; [| exact I].
  case_bool_decide; cbn; [exact I |].
  specialize (IH (seen ∪ {[ n ]}) n').
  destruct (yielded (iter_granules_loop self lsbu fuel (seen ∪ {[ n ]}) n')); [exact I |].
  split; [done |]. by exists n'.
Qed.

(** No index already in [seen] is yielded, and none is yielded twice. *)
Lemma iter_granules_loop_fresh (self : t) (lsbu : Z) (fuel : nat) :
  forall (seen : gset Z) (n : Z),
    n ∉ seen ->
    Forall (fun gi => GranuleInfo.n gi ∉ seen)
      (yielded (iter_granules_loop self lsbu fuel seen n))
    /\ NoDup (GranuleInfo.n <$> yielded (iter_granules_loop self lsbu fuel seen n)).
Proof.
  induction fuel as [| fuel IH]; intros seen n Hn; [split; constructor |].
  rewrite iter_granules_loop_S.
  destruct (entry_at self lsbu n) as [gi | e |] eqn:Hgi; cbn;
    [| split; constructor ..].
  apply entry_at_n in Hgi as Hgin.
  assert (Forall (fun gi' => GranuleInfo.n gi' ∉ seen) [gi]
          /\ NoDup (GranuleInfo.n <$> [gi])) as Hone.
  { split; [constructor; [by rewrite Hgin | constructor] |].
    cbn. constructor; [apply not_elem_of_nil | constructor]. }
  destruct (GranuleInfo.last gi); cbn; [exact Hone |].
  destruct (GranuleInfo.next_n gi) as [n' |]; cbn; [| exact Hone].
  case_bool_decide as Hn'; cbn; [exact Hone |].
  destruct (IH (seen ∪ {[ n ]}) n' Hn') as [Hall Hnodup].
  split.
  - constructor; [by rewrite Hgin |].
    eapply Forall_impl; [exact Hall |]. cbn.
    intros gi' Hnot Hin. apply Hnot, elem_of_union. by left.
  - constructor; [| exact Hnodup]. rewrite Hgin.
    intros (gi' & -> & Hin)%list_elem_of_fmap.
    rewrite Forall_forall in Hall. apply (Hall gi' Hin), elem_of_union.
    right. by apply elem_of_singleton.
Qed.

(** Reading and decoding an entry never reports a loop. *)
Lemma entry_at_not_loop (self : t) (lsbu n : Z) :
  entry_at self lsbu n <> Raise (RecoverableCorruption LoopInGranuleMap).
Proof.
  unfold entry_at. destruct (read_granule self n) as [raw | e |] eqn:Hraw; cbn.
  - unfold GranuleInfo.fromraw, GranuleInfo.the_byte, py_assert.
    repeat (case_match; cbn; try discriminate).
  - revert Hraw. unfold read_granule. rewrite granule_map_range_eq.
    unfold granule_count, sector_count, pread, py_assert.
    repeat (case_match; cbn; try discriminate); congruence.
  - discriminate.
Qed.

(** In a stretch of a chain only the last entry can be a terminal one. *)
Lemma chain_terminal_is_last (self : t) (lsbu : Z) (gis : list GranuleInfo.t) :
  forall (n : Z) (i : nat) (gi : GranuleInfo.t),
    chain self lsbu n gis ->
    gis !! i = Some gi -> GranuleInfo.last gi = true -> S i = length gis.
Proof.
  induction gis as [| g [| g' rest] IH]; intros n i gi Hchain Hi Hlast.
  - discriminate.
  - destruct i; [reflexivity | discriminate].
  - destruct Hchain as (_ & Hcont & n' & _ & Hrest).
    destruct i as [| i]; cbn in Hi.
    + injection Hi as ->. congruence.
    + cbn [length]. f_equal. by apply (IH n' i gi).
Qed.

Lemma chain_entries (self : t) (lsbu : Z) (gis : list GranuleInfo.t) :
  forall (n : Z),
    chain self lsbu n gis ->
    Forall (fun gi => entry_at self lsbu (GranuleInfo.n gi) = Ok gi) gis.
Proof.
  induction gis as [| g rest IH]; intros n Hchain; [constructor |].
  destruct Hchain as (Hg & Hrest). constructor.
  - by rewrite (entry_at_n _ _ _ _ Hg).
  - destruct rest as [| g' rest]; [constructor |].
    destruct Hrest as (_ & n' & _ & Hrest). by apply (IH n').
Qed.

(** How the loop ends, read off the last entry it yields: normally exactly
    when that entry is terminal, with the loop error exactly when that entry
    is a continuation to an index already visited. *)
Lemma iter_granules_loop_ending (self : t) (lsbu : Z) (fuel : nat) :
  forall (seen : gset Z) (n : Z),
    let g := iter_granules_loop self lsbu fuel seen n in
    (ending g = Ok tt <->
       exists gi, last (yielded g) = Some gi /\ GranuleInfo.last gi = true)
    /\ (ending g = Raise (RecoverableCorruption LoopInGranuleMap) <->
          exists gi n', last (yielded g) = Some gi
                        /\ GranuleInfo.last gi = false
                        /\ GranuleInfo.next_n gi = Some n'
                        /\ (n' ∈ seen \/ n' ∈ GranuleInfo.n <$> yielded g)).
Proof.
  induction fuel as [| fuel IH]; intros seen n g; subst g.
  - cbn. split; (split; [discriminate |]).
    + intros (gi & [=] & _).
    + intros (gi & n' & [=] & _).
  - rewrite iter_granules_loop_S.
    pose proof (entry_at_not_loop self lsbu n) as Hnl.
    destruct (entry_at self lsbu n) as [gi | e |] eqn:Hgi; cbn.
    2:{ split; (split; [intros [=]; congruence |]).
        - intros (gi & [=] & _).
        - intros (gi & n' & [=] & _). }
    2:{ split; (split; [discriminate |]).
        - intros (gi & [=] & _).
        - intros (gi & n' & [=] & _). }
    apply entry_at_n in Hgi as Hgin.
    destruct (GranuleInfo.last gi) eqn:Hlast; cbn.
    { split; split.
      - intros _. by exists gi.
      - done.
      - discriminate.
      - intros (gi' & n' & [= <-] & Hf & _). congruence. }
    destruct (GranuleInfo.next_n gi) as [n' |] eqn:Hnext; cbn.
    2:{ split; (split; [discriminate |]).
        - intros (gi' & [= <-] & Ht). congruence.
        - intros (gi' & n' & [= <-] & _ & Hn' & _). congruence. }
    case_bool_decide as Hn'; cbn.
    { split; split.
      - discriminate.
      - intros (gi' & [= <-] & Ht). congruence.
      - intros _. exists gi, n'. repeat split; try done.
        apply elem_of_union in Hn' as [Hn' | Hn']; [by left | right].
        apply elem_of_singleton in Hn' as ->. rewrite Hgin. left.
      - done. }
    destruct (IH (seen ∪ {[ n ]}) n') as [IHok IHloop].
    rewrite last_cons.
    destruct (yielded (iter_granules_loop self lsbu fuel (seen ∪ {[ n ]}) n'))
      as [| g1 rest] eqn:Hy.
    { cbn in *. split; split.
      - intros He. apply IHok in He as (gi' & [=] & _).
      - intros (gi' & [= <-] & Ht). congruence.
      - intros He. apply IHloop in He as (gi' & n'' & [=] & _).
      - intros (gi' & n'' & [= <-] & _ & Hnx & Hin). exfalso.
        rewrite Hnext in Hnx. injection Hnx as <-. apply Hn'.
        destruct Hin as [Hin | Hin]; [apply elem_of_union; by left |].
        apply list_elem_of_singleton in Hin. subst n'.
        apply elem_of_union. right. rewrite Hgin. by apply elem_of_singleton. }
    assert (exists gl, last (g1 :: rest) = Some gl) as [gl Hgl].
    { destruct (last (g1 :: rest)) eqn:Hl; [eauto |]. by apply last_None in Hl. }
    rewrite Hgl in *. split; [exact IHok |].
    rewrite IHloop. split; intros (gi' & n'' & Hl & Hf & Hnx & Hin);
      exists gi', n''; repeat split; try done.
    + destruct Hin as [[Hin | Hin]%elem_of_union | Hin]; [by left | right | right].
      * apply elem_of_singleton in Hin as ->. rewrite Hgin. left.
      * by right.
    + destruct Hin as [Hin | Hin]; [left; apply elem_of_union; by left |].
      apply elem_of_cons in Hin as [-> | Hin]; [left | by right].
      apply elem_of_union. right. rewrite Hgin. by apply elem_of_singleton.
Qed.

Lemma iter_granules_chain (self : t) (first_granule lsbu : Z) :
  chain self lsbu first_granule (yielded (iter_granules self first_granule lsbu)).
Proof. apply iter_granules_loop_chain. Qed.

Lemma iter_granules_entries (self : t) (first_granule lsbu : Z) :
  Forall (fun gi => entry_at self lsbu (GranuleInfo.n gi) = Ok gi)
    (yielded (iter_granules self first_granule lsbu)).
Proof. eapply chain_entries, iter_granules_chain. Qed.

Lemma iter_granules_ending (self : t) (first_granule lsbu : Z) :
  (ending (iter_granules self first_granule lsbu) = Ok tt <->
     exists gi, last (yielded (iter_granules self first_granule lsbu)) = Some gi
                /\ GranuleInfo.last gi = true)
  /\ (ending (iter_granules self first_granule lsbu)
        = Raise (RecoverableCorruption LoopInGranuleMap) <->
        exists gi n', last (yielded (iter_granules self first_granule lsbu)) = Some gi
                      /\ GranuleInfo.last gi = false
                      /\ GranuleInfo.next_n gi = Some n'
                      /\ n' ∈ GranuleInfo.n <$> yielded (iter_granules self first_granule lsbu)).
Proof.
  pose proof (iter_granules_loop_ending self lsbu (iter_granules_fuel self) ∅ first_granule)
    as [Hok Hloop].
  split; [exact Hok |].
  etransitivity; [exact Hloop |].
  split; intros (gi & n' & Hl & Hf & Hnx & Hin); exists gi, n'.
  - destruct Hin as [Hin | Hin]; [by apply not_elem_of_empty in Hin | done].
  - repeat split; try done. by right.
Qed.

Lemma iter_granules_not_Diverge (self : t) (first_granule lsbu : Z) :
  ending (iter_granules self first_granule lsbu) <> Diverge.
Proof.
  apply iter_granules_loop_terminates.
  - intros x Hx. by apply not_elem_of_empty in Hx.
  - apply not_elem_of_empty.
  - rewrite size_empty. unfold iter_granules_fuel.
    change (max_granules (geom self)) with 192. lia.
Qed.

Lemma iter_granules_NoDup (self : t) (first_granule lsbu : Z) :
  NoDup (GranuleInfo.n <$> yielded (iter_granules self first_granule lsbu)).
Proof. apply iter_granules_loop_fresh, not_elem_of_empty. Qed.

(** A terminal entry is the last one the walk yields, and the walk then ends
    normally. *)
Lemma iter_granules_terminal_ends (self : t) (first_granule lsbu : Z)
    (i : nat) (gi : GranuleInfo.t) :
  yielded (iter_granules self first_granule lsbu) !! i = Some gi ->
  GranuleInfo.last gi = true ->
  S i = length (yielded (iter_granules self first_granule lsbu))
  /\ ending (iter_granules self first_granule lsbu) = Ok tt.
Proof.
  intros Hi Hlast.
  pose proof (chain_terminal_is_last _ _ _ _ _ _
                (iter_granules_chain self first_granule lsbu) Hi Hlast) as Hlen.
  split; [exact Hlen |].
  apply (proj1 (iter_granules_ending self first_granule lsbu)).
  exists gi. split; [| exact Hlast].
  generalize dependent (yielded (iter_granules self first_granule lsbu)).
  intros l Hi Hlen. rewrite last_lookup, <- Hlen. exact Hi.
Qed.

(** C6: the walk [iter_granules] always ends (its loop never outlasts the
    fuel), yields no extent index twice, yields a terminal entry only as its
    last entry and then ends normally, and ends with
    [RecoverableCorruption("loop in granule map")] exactly when the last entry
    it yields continues to an index already yielded; on the cycle 5 -> 9 -> 5
    it yields extents 5 and 9 and then fails with that error. *)
Theorem iter_granules_terminates_without_repeats (self : t) (first_granule lsbu : Z) :
  let g := iter_granules self first_granule lsbu in
  ending g <> Diverge
  /\ NoDup (GranuleInfo.n <$> yielded g)
  /\ (forall i gi, yielded g !! i = Some gi -> GranuleInfo.last gi = true ->
        S i = length (yielded g) /\ ending g = Ok tt)
  /\ (ending g = Ok tt ->
        exists gi, last (yielded g) = Some gi /\ GranuleInfo.last gi = true)
  /\ (ending g = Raise (RecoverableCorruption LoopInGranuleMap) <->
        exists gi n', last (yielded g) = Some gi
                      /\ GranuleInfo.last gi = false
                      /\ GranuleInfo.next_n gi = Some n'
                      /\ n' ∈ GranuleInfo.n <$> yielded g)
  /\ (GranuleInfo.n <$> yielded (iter_granules (Make cycle_disk) 5 0) = [5; 9]
      /\ ending (iter_granules (Make cycle_disk) 5 0)
         = Raise (RecoverableCorruption LoopInGranuleMap)).
Proof.
  intros g. subst g.
  split; [| split; [| split; [| split; [| split]]]].
  - apply iter_granules_not_Diverge.
  - apply iter_granules_NoDup.
  - apply iter_granules_terminal_ends.
  - apply (proj1 (iter_granules_ending self first_granule lsbu)).
  - apply (proj2 (iter_granules_ending self first_granule lsbu)).
  - split; vm_compute; reflexivity.
Qed.

(** ** Reading a file *)

Lemma granule_fromraw_bounds (n : Z) (raw : raw_arg) (lsbu : Z) (gi : GranuleInfo.t) :
  GranuleInfo.fromraw n raw lsbu Geometry.default = Ok gi ->
  0 <= GranuleInfo.sectors_used gi <= 9
  /\ (0 <= lsbu <= 256 ->
      0 <= GranuleInfo.bytes_used gi <= GranuleInfo.sectors_used gi * 256).
Proof.
  destruct (GranuleInfo.the_byte raw) as [b | e |] eqn:Hb.
  - rewrite (fromraw_cases _ _ _ _ _ Hb). pose proof (the_byte_range _ _ Hb) as Hr.
    destruct (Z.ltb_spec b 192).
    { intros [= <-]. cbn. lia. }
    destruct (Z.leb_spec b 201).
    { rewrite terminal_low_nibble by lia. unfold py_assert. cbn.
      destruct (Z.leb_spec (b - 192) 9); [| lia]. cbn.
      destruct (Z.eqb_spec (b - 192) 0).
      - destruct (lsbu =? 0); cbn; [| discriminate]. intros [= <-]. cbn. lia.
      - cbn. intros [= <-]. cbn. lia. }
    destruct (b =? 255); [| discriminate]. intros [= <-]. cbn. lia.
  - unfold GranuleInfo.fromraw. rewrite Hb. discriminate.
  - unfold GranuleInfo.fromraw. rewrite Hb. discriminate.
Qed.

(** One turn of the loop of [iter_file_contents], with the byte range of the
    extent worked out. *)
Lemma iter_file_contents_over_cons (self : t) (g0 b0 : Z) (gi : GranuleInfo.t)
    (rest : list GranuleInfo.t) (fin : outcome unit) (bytes_remaining : option Z) :
  iter_file_contents_over self g0 b0 (gi :: rest) fin bytes_remaining =
  if GranuleInfo.free gi then gen_end (Raise AssertionError)
  else if GranuleInfo.n gi <? g0 then
    iter_file_contents_over self g0 b0 rest fin bytes_remaining
  else
    match pread self (GranuleInfo.sectors_used gi * 256)
            (fst (granule_range self (GranuleInfo.n gi))) with
    | Ok data =>
        let data := slice_to data (GranuleInfo.bytes_used gi) in
        let data := if GranuleInfo.n gi =? g0 then slice_from data b0 else data in
        match bytes_remaining with
        | Some r =>
            let data := if len data >? r then slice_to data r else data in
            gen_yield data
              (iter_file_contents_over self g0 b0 rest fin (Some (r - len data)))
        | None => gen_yield data (gen_end (Raise TypeError))
        end
    | Raise e => gen_end (Raise e)
    | Diverge => gen_end Diverge
    end.
Proof.
  cbn [iter_file_contents_over].
  destruct (GranuleInfo.free gi); [reflexivity |].
  destruct (GranuleInfo.n gi <? g0); [reflexivity |].
  unfold granule_range, granule_range_sectors, sector_range_linear. cbn.
  destruct (_ >=? _); cbn.
  - replace ((GranuleInfo.n gi * 9 + 18) * 256 + 256 * GranuleInfo.sectors_used gi
             - (GranuleInfo.n gi * 9 + 18) * 256)
      with (GranuleInfo.sectors_used gi * 256) by lia.
    reflexivity.
  - replace (GranuleInfo.n gi * 9 * 256 + 256 * GranuleInfo.sectors_used gi
             - GranuleInfo.n gi * 9 * 256)
      with (GranuleInfo.sectors_used gi * 256) by lia.
    reflexivity.
Qed.

(** The sectors an entry of the chain says are used lie inside the image, so
    reading them succeeds. *)
Lemma entry_pread (self : t) (lsbu : Z) (gi : GranuleInfo.t) :
  entry_at self lsbu (GranuleInfo.n gi) = Ok gi ->
  0 <= GranuleInfo.n gi
  /\ 0 <= GranuleInfo.sectors_used gi <= 9
  /\ (0 <= lsbu <= 256 ->
      0 <= GranuleInfo.bytes_used gi <= GranuleInfo.sectors_used gi * 256)
  /\ pread self (GranuleInfo.sectors_used gi * 256)
        (fst (granule_range self (GranuleInfo.n gi)))
     = Ok (extent_content self (GranuleInfo.n gi) (GranuleInfo.sectors_used gi * 256)).
Proof.
  intros Hgi. apply entry_at_Ok in Hgi as [(gc & Hgc & Hn) [b Hb]].
  apply granule_count_Ok in Hgc as [Hgc0 Hsize].
  apply granule_fromraw_bounds in Hb as [Hsu Hbu].
  split; [lia |]. split; [exact Hsu |]. split; [exact Hbu |].
  unfold extent_content. apply pread_inside; [lia | |];
    unfold granule_range, granule_range_sectors, sector_range_linear; cbn;
    destruct (_ >=? _); cbn; lia.
Qed.

(** Every chunk is cut to the bytes still wanted, so a read of [r] bytes
    never gives more than [r]. *)
Lemma iter_file_contents_over_bound (self : t) (g0 b0 : Z) (gis : list GranuleInfo.t)
    (fin : outcome unit) :
  forall r, 0 <= r ->
    len (concat (yielded (iter_file_contents_over self g0 b0 gis fin (Some r)))) <= r.
Proof.
  induction gis as [| gi rest IH]; intros r Hr; [unfold len; cbn; lia |].
  rewrite iter_file_contents_over_cons.
  destruct (GranuleInfo.free gi); [unfold len; cbn; lia |].
  destruct (GranuleInfo.n gi <? g0); [by apply IH |].
  destruct (pread self _ _) as [data | e |]; try (unfold len; cbn; lia).
  cbv zeta.
  set (data1 := if GranuleInfo.n gi =? g0
                then slice_from (slice_to data (GranuleInfo.bytes_used gi)) b0
                else slice_to data (GranuleInfo.bytes_used gi)).
  set (data2 := if len data1 >? r then slice_to data1 r else data1).
  assert (len data2 <= r) as Hle.
  { subst data2. destruct (Z.gtb_spec (len data1) r) as [Hgt | Hngt]; [| lia].
    unfold slice_to. destruct (Z.ltb_spec r 0); [lia |].
    unfold len in *. rewrite length_take. lia. }
  cbn [yielded gen_yield concat]. specialize (IH (r - len data2) ltac:(lia)).
  unfold len in *. rewrite length_app. lia.
Qed.

(** On a chain without free entries every extent is read, and the reader
    ends the way the walk does. *)
Lemma iter_file_contents_over_ending (self : t) (lsbu g0 b0 : Z)
    (gis : list GranuleInfo.t) (fin : outcome unit) :
  Forall (fun gi => entry_at self lsbu (GranuleInfo.n gi) = Ok gi) gis ->
  Forall (fun gi => GranuleInfo.free gi = false) gis ->
  forall r, ending (iter_file_contents_over self g0 b0 gis fin (Some r)) = fin.
Proof.
  induction gis as [| gi rest IH]; intros Hentries Hfree r; [reflexivity |].
  apply Forall_cons in Hentries as [Hgi Hentries]. apply Forall_cons in Hfree as [Hf Hfree].
  rewrite iter_file_contents_over_cons, Hf.
  destruct (GranuleInfo.n gi <? g0); [by apply IH |].
  destruct (entry_pread self lsbu gi Hgi) as (_ & _ & _ & ->). cbn. by apply IH.
Qed.

(** On a chain that has a free entry the reader stops at the assertion. *)
Lemma iter_file_contents_over_free (self : t) (lsbu g0 b0 : Z)
    (gis : list GranuleInfo.t) (fin : outcome unit) :
  Forall (fun gi => entry_at self lsbu (GranuleInfo.n gi) = Ok gi) gis ->
  Exists (fun gi => GranuleInfo.free gi = true) gis ->
  forall r, ending (iter_file_contents_over self g0 b0 gis fin (Some r))
            = Raise AssertionError.
Proof.
  induction gis as [| gi rest IH]; intros Hentries Hfree r; [by inversion Hfree |].
  apply Forall_cons in Hentries as [Hgi Hentries].
  rewrite iter_file_contents_over_cons.
  destruct (GranuleInfo.free gi) eqn:Hf; [reflexivity |].
  apply Exists_cons in Hfree as [Hfree | Hfree]; [congruence |].
  destruct (GranuleInfo.n gi <? g0); [by apply IH |].
  destruct (entry_pread self lsbu gi Hgi) as (_ & _ & _ & ->). cbn. by apply IH.
Qed.

Lemma pread_file_eq (self : t) (dentry : DirectoryEntry.t) (length_ offset : Z) :
  pread_file self dentry length_ offset =
  let walk := iter_dentry_granules self dentry in
  let g := iter_file_contents_over self (offset / 2304) (offset mod 2304)
             (yielded walk) (ending walk) (Some length_) in
  _ ← ending g; Ok (concat (yielded g)).
Proof. reflexivity. Qed.

(** C10: [pread_file] never returns more bytes than the [length_] asked for,
    whatever the offset; and it does return when the walk of the chain
    succeeds and meets no free entry. *)
Theorem pread_file_at_most_length (self : t) (dentry : DirectoryEntry.t)
    (length_ offset : Z) :
  0 <= length_ -> 0 <= offset ->
  (forall data, pread_file self dentry length_ offset = Ok data -> len data <= length_)
  /\ (ending (iter_dentry_granules self dentry) = Ok tt ->
      Forall (fun gi => GranuleInfo.free gi = false)
        (yielded (iter_dentry_granules self dentry)) ->
      exists data, pread_file self dentry length_ offset = Ok data
                   /\ len data <= length_).
Proof.
  intros Hlen Hoff. rewrite pread_file_eq. cbv zeta.
  pose proof (iter_file_contents_over_bound self (offset / 2304) (offset mod 2304)
                (yielded (iter_dentry_granules self dentry))
                (ending (iter_dentry_granules self dentry)) length_ Hlen) as Hbound.
  split.
  - intros data Hdata. apply bind_Ok in Hdata as (_ & _ & [= <-]). exact Hbound.
  - intros Hend Hfree. rewrite Hend in Hbound |- *.
    rewrite (iter_file_contents_over_ending self
               (DirectoryEntry.last_sector_bytes_used dentry) _ _ _ _
               (iter_granules_entries self _ _) Hfree).
    eexists. split; [reflexivity | exact Hbound].
Qed.

Lemma pread_file_at_most_length_witness :
  exists data, pread_file (Make hello_disk) hello_dentry 10 612 = Ok data
               /\ len data <= 10.
Proof.
  apply (proj2 (pread_file_at_most_length (Make hello_disk) hello_dentry 10 612
                  ltac:(lia) ltac:(lia))).
  - vm_compute. reflexivity.
  - vm_compute. repeat constructor.
Defined.

(** A read on a chain that has a free entry stops at [assert not gi.free]. *)
Lemma pread_file_free_entry (self : t) (dentry : DirectoryEntry.t) (length_ offset : Z) :
  Exists (fun gi => GranuleInfo.free gi = true)
    (yielded (iter_dentry_granules self dentry)) ->
  pread_file self dentry length_ offset = Raise AssertionError.
Proof.
  intros Hfree. rewrite pread_file_eq. cbv zeta.
  by rewrite (iter_file_contents_over_free self
                (DirectoryEntry.last_sector_bytes_used dentry) _ _ _ _
                (iter_granules_entries self _ _) Hfree).
Qed.

(** ** Reading a whole file *)

Lemma get_file_sizes_fold (gis : list GranuleInfo.t) :
  forall a b,
    foldl (fun '(logical_size, allocated_granules) gi =>
             (logical_size + GranuleInfo.bytes_used gi, allocated_granules + 1))
          (a, b) gis
    = (a + total_bytes_used gis, b + len gis).
Proof.
  induction gis as [| gi rest IH]; intros a b; cbn [foldl].
  - unfold len. cbn. f_equal; lia.
  - rewrite IH. unfold len, total_bytes_used. cbn [length foldr]. f_equal; lia.
Qed.

Lemma get_file_sizes_Ok (self : t) (dentry : DirectoryEntry.t) (size bps alloc : Z) :
  get_file_sizes self dentry = Ok (size, bps, alloc) ->
  ending (iter_dentry_granules self dentry) = Ok tt
  /\ size = total_bytes_used (yielded (iter_dentry_granules self dentry))
  /\ bps = 256
  /\ alloc = len (yielded (iter_dentry_granules self dentry)) * 9.
Proof.
  unfold get_file_sizes. rewrite get_file_sizes_fold.
  destruct (ending (iter_dentry_granules self dentry)) as [[] | e |]; cbn;
    [| discriminate ..].
  intros [= <- <- <-]. repeat split; lia.
Qed.





(** ** Reading from an offset *)

(** C2 at a file that does not start at extent 0: HELLO.TXT occupies extent 1
    and has a logical size of 612 bytes; a read of 10 bytes at offset 612
    returns 10 bytes of the file, since the reader compares the extent's
    number on disk, 1, with the extent 0 the offset falls in. *)
Lemma pread_file_at_end_of_file_returns_bytes :
  directory_lookup (Make hello_disk) hello_name = Ok (Some hello_dentry)
  /\ get_file_sizes (Make hello_disk) hello_dentry = Ok (612, 256, 9)
  /\ pread_file (Make hello_disk) hello_dentry 10 612 = Ok (replicate 10 x41)
  /\ pread_file (Make hello_disk) hello_dentry 10 700 = Ok (replicate 10 x41).
Proof.
  split; [| split; [| split]]; vm_compute; reflexivity.
Qed.

(** ** Filesystem statistics *)

Lemma load_global_sectors_per_granule :
  load_global module_globals "sectors_per_granule"
  = Raise (NameError "sectors_per_granule").
Proof. vm_compute. reflexivity. Qed.

(** C7 on the code: [get_fs_stats] never returns a [FilesystemStats]; once
    the counts are made it reads the unbound name [sectors_per_granule] and
    raises [NameError], as on the disk that holds HELLO.TXT. *)
Theorem get_fs_stats_never_returns (self : t) :
  (forall stats, get_fs_stats self <> Ok stats)
  /\ (forall g d sc,
        count_granules self = Ok g -> count_directory_entries self = Ok d ->
        sector_count self = Ok sc ->
        get_fs_stats self = Raise (NameError "sectors_per_granule"))
  /\ (count_granules (Make hello_disk) = Ok (68, 67, 1)
      /\ count_directory_entries (Make hello_disk) = Ok (72, 71, 1)
      /\ sector_count (Make hello_disk) = Ok 630
      /\ get_fs_stats (Make hello_disk) = Raise (NameError "sectors_per_granule")).
Proof.
  split; [| split].
  - intros stats. unfold get_fs_stats.
    destruct (count_granules self) as [[[g_total g_free] g_used] | e |]; cbn;
      [| discriminate ..].
    destruct (count_directory_entries self) as [[[d_total d_free] d_used] | e |]; cbn;
      [| discriminate ..].
    destruct (sector_count self) as [sc | e |]; cbn; [| discriminate ..].
    rewrite load_global_sectors_per_granule. discriminate.
  - intros [[g_total g_free] g_used] [[d_total d_free] d_used] sc Hg Hd Hsc.
    unfold get_fs_stats. rewrite Hg. cbn. rewrite Hd. cbn. rewrite Hsc. cbn.
    by rewrite load_global_sectors_per_granule.
  - split; [| split; [| split]]; vm_compute; reflexivity.
Qed.

(** ** Writing a new file *)

Lemma load_global_length :
  load_global WritableRSDOSFilesystem.module_globals "length"
  = Raise (NameError "length").
Proof. vm_compute. reflexivity. Qed.

(** C1 on the code: [write_new_file] raises [NameError] for [length] before
    it writes anything, whatever it is given, and leaves the image as it was;
    on a blank disk a lookup of HELLO.TXT after writing it finds nothing. *)
Theorem write_new_file_writes_nothing (self : t) (filename extension : list byte)
    (filetype ascii_flag : Z) (content : list byte) :
  WritableRSDOSFilesystem.write_new_file self filename extension filetype ascii_flag content
  = (Raise (NameError "length"), self)
  /\ directory_lookup
       (snd (WritableRSDOSFilesystem.write_new_file (Make blank_disk)
               [x48; x45; x4c; x4c; x4f; x20; x20; x20] [x54; x58; x54] 0 0 [x41]))
       hello_name
     = Ok None.
Proof.
  split.
  - unfold WritableRSDOSFilesystem.write_new_file, WritableRSDOSFilesystem._write_new_file.
    by rewrite load_global_length.
  - vm_compute. reflexivity.
Qed.

(** * Further properties of the format engine *)

Ltac zbool :=
  repeat (match goal with
          | |- context [?a <=? ?b] => destruct (Z.leb_spec a b)
          | |- context [?a <? ?b] => destruct (Z.ltb_spec a b)
          | |- context [?a >=? ?b] => destruct (Z.geb_spec a b)
          | |- context [?a >? ?b] => destruct (Z.gtb_spec a b)
          | |- context [?a =? ?b] => destruct (Z.eqb_spec a b)
          end; cbn [negb andb orb mbind outcome_bind]).

Ltac dlia := Z.to_euclidean_division_equations; lia.

(** ** Arithmetic helpers *)

(** X1: [ceildiv a b], written [-(a // -b)], is the ceiling of [a / b] for a
    positive [b]: the least [q] with [a <= b * q]. *)
Theorem ceildiv_is_ceiling (a b : Z) :
  0 < b ->
  b * (ceildiv a b - 1) < a <= b * ceildiv a b
  /\ (forall q, a <= b * q -> ceildiv a b <= q).
Proof.
  intros Hb. unfold ceildiv.
  pose proof (Z.div_mod a (- b) ltac:(lia)) as Hdm.
  pose proof (Z.mod_neg_bound a (- b) ltac:(lia)) as Hm.
  split; [nia |]. intros q Hq. nia.
Qed.

Lemma ceildiv_is_ceiling_witness :
  9 * (ceildiv 630 9 - 1) < 630 <= 9 * ceildiv 630 9
  /\ (forall q, 630 <= 9 * q -> ceildiv 630 9 <= q).
Proof. apply (ceildiv_is_ceiling 630 9). lia. Defined.

(** X2: [compute_file_offset] splits an offset into an extent, a sector of
    the extent and a byte of the sector: the three parts rebuild the offset,
    the sector is below 9 and the byte below 256, and no other split with
    these bounds does. *)
Theorem compute_file_offset_decomposes (self : t) (dentry : DirectoryEntry.t)
    (offset : Z) :
  let '(g, s, b) := compute_file_offset self dentry offset in
  offset = g * 2304 + s * 256 + b
  /\ 0 <= s < 9 /\ 0 <= b < 256
  /\ (forall g' s' b',
        offset = g' * 2304 + s' * 256 + b' -> 0 <= s' < 9 -> 0 <= b' < 256 ->
        (g', s', b') = (g, s, b)).
Proof.
  unfold compute_file_offset. cbn.
  change (256 * 9) with 2304.
  pose proof (Z.div_mod offset 2304 ltac:(lia)) as H1.
  pose proof (Z.mod_pos_bound offset 2304 ltac:(lia)) as H2.
  pose proof (Z.div_mod (offset mod 2304) 256 ltac:(lia)) as H3.
  pose proof (Z.mod_pos_bound (offset mod 2304) 256 ltac:(lia)) as H4.
  assert (0 <= (offset mod 2304) / 256 < 9) as H5.
  { split; [apply Z.div_pos; lia | apply Z.div_lt_upper_bound; lia]. }
  split; [lia |]. split; [lia |]. split; [lia |].
  intros g' s' b' Hoff Hs Hb.
  assert (g' = offset / 2304) as ->.
  { apply (Z.div_unique offset 2304 g' (s' * 256 + b')); lia. }
  assert (s' = (offset mod 2304) / 256) as ->.
  { apply (Z.div_unique (offset mod 2304) 256 s' b'); lia. }
  f_equal. lia.
Qed.

(** ** The layout of the image *)

(** X3: [sector_range] accepts exactly a cylinder [>= 0], a sector from 1 to
    18 and a count that stays on the track; the byte range it gives starts at
    that sector, is [count] sectors long and lies inside the cylinder's
    track; anything else is an [IndexError]. *)
Theorem sector_range_stays_on_track (self : t) (cyl secnr count : Z) :
  (0 <= cyl /\ 1 <= secnr <= 18 /\ 0 <= count <= 18 - (secnr - 1) ->
   exists start end_,
     sector_range self cyl secnr count = Ok (start, end_)
     /\ start = (cyl * 18 + (secnr - 1)) * 256
     /\ end_ = start + 256 * count
     /\ cyl * 18 * 256 <= start /\ end_ <= (cyl + 1) * 18 * 256)
  /\ (~ (0 <= cyl /\ 1 <= secnr <= 18 /\ 0 <= count <= 18 - (secnr - 1)) ->
      exists msg, sector_range self cyl secnr count = Raise (IndexError msg)).
Proof.
  unfold sector_range, sector_range_linear. cbn. split.
  - intros (Hc & Hs & Hn). zbool; try lia.
    eexists _, _. split; [reflexivity |]. lia.
  - intros Hbad. zbool; try (eexists; reflexivity). lia.
Qed.

(** X4: [directory_entry_range] accepts exactly the slots 0 to 71, the
    [max_directory_entries] that [iter_directory_entries] runs over; slot [n]
    is the 32 bytes at [78848 + 32 n], inside sectors 3 to 11 of track 17;
    any other slot is an [IndexError]. *)
Theorem directory_entry_range_slots (self : t) (n : Z) :
  max_directory_entries (geom self) = 72
  /\ (0 <= n < 72 ->
      directory_entry_range self n
      = Ok (directory_offset + 32 * n, directory_offset + 32 * n + 32)
      /\ (17 * 18 + 2) * 256 <= directory_offset + 32 * n
      /\ directory_offset + 32 * n + 32 <= (17 * 18 + 11) * 256)
  /\ (~ 0 <= n < 72 ->
      directory_entry_range self n = Raise (IndexError "directory entry out of range")).
Proof.
  split; [reflexivity |].
  unfold directory_entry_range, sector_range, sector_range_linear, directory_offset.
  cbn. split.
  - intros Hn. zbool; try lia. split; [| lia]. do 2 f_equal; lia.
  - intros Hn. zbool; try reflexivity; lia.
Qed.

(** X5: the byte ranges of the extents: each is 2304 bytes long, a lower
    extent ends before a higher one starts, and none touches the bytes of the
    directory track, [78336, 82944). *)
Theorem granule_range_disjoint (self : t) (g1 g2 : Z) :
  0 <= g1 < g2 ->
  snd (granule_range self g1) - fst (granule_range self g1) = 2304
  /\ 0 <= fst (granule_range self g1)
  /\ snd (granule_range self g1) <= fst (granule_range self g2)
  /\ (snd (granule_range self g1) <= 17 * 18 * 256
      \/ 18 * 18 * 256 <= fst (granule_range self g1)).
Proof.
  intros Hg. unfold granule_range, granule_range_sectors, sector_range_linear. cbn.
  zbool; cbn; lia.
Qed.

Lemma granule_range_disjoint_witness :
  snd (granule_range (Make []) 33) - fst (granule_range (Make []) 33) = 2304
  /\ 0 <= fst (granule_range (Make []) 33)
  /\ snd (granule_range (Make []) 33) <= fst (granule_range (Make []) 34)
  /\ (snd (granule_range (Make []) 33) <= 17 * 18 * 256
      \/ 18 * 18 * 256 <= fst (granule_range (Make []) 33)).
Proof. apply (granule_range_disjoint (Make []) 33 34). lia. Defined.

(** ** The size of the image *)

Lemma sector_count_eq (self : t) :
  sector_count self =
  if len (io self) / 256 <? 324 then Raise FilesystemFatalError
  else Ok (len (io self) / 256).
Proof. reflexivity. Qed.

Lemma sector_count_small (self : t) :
  len (io self) < 82944 -> sector_count self = Raise FilesystemFatalError.
Proof.
  intros Hsmall. rewrite sector_count_eq.
  destruct (Z.ltb_spec (len (io self) / 256) 324); [reflexivity | dlia].
Qed.

Lemma granule_count_small (self : t) :
  len (io self) < 82944 -> granule_count self = Raise FilesystemFatalError.
Proof.
  intros Hsmall. unfold granule_count. by rewrite sector_count_small.
Qed.

Lemma granule_count_large (self : t) :
  82944 <= len (io self) ->
  granule_count self = Ok ((len (io self) / 256 - 18) / 9).
Proof.
  intros Hlarge. unfold granule_count. rewrite sector_count_eq.
  destruct (Z.ltb_spec (len (io self) / 256) 324); [dlia | reflexivity].
Qed.

Lemma read_granule_map_large (self : t) :
  82944 <= len (io self) ->
  read_granule_map self
  = Ok (take (Z.to_nat (Z.min ((len (io self) / 256 - 18) / 9) 192))
          (drop (Z.to_nat gmap_offset) (io self))).
Proof.
  intros Hlarge. unfold read_granule_map.
  rewrite granule_map_range_eq, (granule_count_large self Hlarge). cbn.
  replace (gmap_offset + Z.min ((len (io self) / 256 - 18) / 9) 192 - gmap_offset)
    with (Z.min ((len (io self) / 256 - 18) / 9) 192) by lia.
  apply pread_inside; unfold gmap_offset; dlia.
Qed.

(** X6: an image shorter than 18 tracks (82944 bytes) is refused: counting
    its sectors or extents, reading or counting its allocation map, walking a
    chain, sizing or reading a file all raise [FilesystemFatalError], and the
    walk yields nothing. *)
Theorem small_image_is_fatal (self : t) (dentry : DirectoryEntry.t)
    (first_granule lsbu length_ offset : Z) :
  len (io self) < 82944 ->
  sector_count self = Raise FilesystemFatalError
  /\ granule_count self = Raise FilesystemFatalError
  /\ read_granule_map self = Raise FilesystemFatalError
  /\ count_granules self = Raise FilesystemFatalError
  /\ iter_granules self first_granule lsbu = Gen [] (Raise FilesystemFatalError)
  /\ get_file_sizes self dentry = Raise FilesystemFatalError
  /\ pread_file self dentry length_ offset = Raise FilesystemFatalError.
Proof.
  intros Hsmall.
  assert (forall n l, entry_at self l n = Raise FilesystemFatalError) as Hentry.
  { intros n l. unfold entry_at, read_granule.
    by rewrite granule_map_range_eq, (granule_count_small self Hsmall). }
  assert (forall fg l, iter_granules self fg l = Gen [] (Raise FilesystemFatalError)) as Hwalk.
  { intros fg l. unfold iter_granules, iter_granules_fuel.
    rewrite iter_granules_loop_S, Hentry. reflexivity. }
  split; [by apply sector_count_small |].
  split; [by apply granule_count_small |].
  assert (read_granule_map self = Raise FilesystemFatalError) as Hmap.
  { unfold read_granule_map.
    by rewrite granule_map_range_eq, (granule_count_small self Hsmall). }
  split; [exact Hmap |].
  split; [unfold count_granules; by rewrite Hmap |].
  split; [apply Hwalk |].
  split.
  - unfold get_file_sizes, iter_dentry_granules. rewrite Hwalk. reflexivity.
  - rewrite pread_file_eq. unfold iter_dentry_granules. rewrite Hwalk. reflexivity.
Qed.

Lemma small_image_is_fatal_witness :
  sector_count (Make []) = Raise FilesystemFatalError
  /\ granule_count (Make []) = Raise FilesystemFatalError
  /\ read_granule_map (Make []) = Raise FilesystemFatalError
  /\ count_granules (Make []) = Raise FilesystemFatalError
  /\ iter_granules (Make []) 0 0 = Gen [] (Raise FilesystemFatalError)
  /\ get_file_sizes (Make []) hello_dentry = Raise FilesystemFatalError
  /\ pread_file (Make []) hello_dentry 1 0 = Raise FilesystemFatalError.
Proof.
  apply (small_image_is_fatal (Make []) hello_dentry 0 0 1 0). unfold len. cbn. lia.
Defined.

(** X7: on an image of at least 82944 bytes the allocation map can always be
    read; it has one byte per extent, at most 192, and 192 exactly when the
    image reaches [max_filesystem_bytes]; and every extent the count covers
    lies inside the image. *)
Theorem large_image_allocation_map (self : t) :
  82944 <= len (io self) ->
  exists gc gmap,
    granule_count self = Ok gc
    /\ 0 <= gc
    /\ read_granule_map self = Ok gmap
    /\ len gmap = Z.min gc 192
    /\ (len gmap = 192 <-> max_filesystem_bytes (geom self) <= len (io self))
    /\ (forall g, 0 <= g < gc -> snd (granule_range self g) <= len (io self)).
Proof.
  intros Hlarge. eexists _, _.
  split; [by apply granule_count_large |].
  assert (0 <= (len (io self) / 256 - 18) / 9) as Hgc by dlia.
  split; [exact Hgc |].
  split; [by apply read_granule_map_large |].
  assert (len (take (Z.to_nat (Z.min ((len (io self) / 256 - 18) / 9) 192))
                 (drop (Z.to_nat gmap_offset) (io self)))
          = Z.min ((len (io self) / 256 - 18) / 9) 192) as Hlen.
  { unfold len in *. rewrite length_take, length_drop. unfold gmap_offset. dlia. }
  split; [exact Hlen |]. split.
  - rewrite Hlen. change (max_filesystem_bytes (geom self)) with 446976. dlia.
  - intros g Hg.
    destruct (granule_count_Ok self _ (granule_count_large self Hlarge)) as [_ Hsize].
    unfold granule_range, granule_range_sectors, sector_range_linear. cbn.
    zbool; cbn; lia.
Qed.

Lemma large_image_allocation_map_witness :
  exists gc gmap,
    granule_count (Make hello_disk) = Ok gc
    /\ 0 <= gc
    /\ read_granule_map (Make hello_disk) = Ok gmap
    /\ len gmap = Z.min gc 192
    /\ (len gmap = 192 <-> max_filesystem_bytes (geom (Make hello_disk))
                           <= len (io (Make hello_disk)))
    /\ (forall g, 0 <= g < gc ->
          snd (granule_range (Make hello_disk) g) <= len (io (Make hello_disk))).
Proof.
  apply (large_image_allocation_map (Make hello_disk)). vm_compute. discriminate.
Defined.

(** X8: [read_granule] reads the byte that [read_granule_map] has at the same
    index, and an index outside the map is an [IndexError]. *)
Theorem read_granule_reads_the_map (self : t) (gmap : list byte) (n : Z) :
  read_granule_map self = Ok gmap ->
  (0 <= n < len gmap ->
   exists b, gmap !! Z.to_nat n = Some b /\ read_granule self n = Ok [b])
  /\ (~ 0 <= n < len gmap ->
      read_granule self n
      = Raise (IndexError ("granule number out of range: " +:+ pretty n))).
Proof.
  unfold read_granule_map, read_granule. rewrite granule_map_range_eq.
  destruct (granule_count self) as [gc | e |] eqn:Hgc; cbn; [| discriminate ..].
  replace (gmap_offset + Z.min gc 192 - gmap_offset) with (Z.min gc 192) by lia.
  replace (gmap_offset + n + 1 - (gmap_offset + n)) with 1 by lia.
  intros Hmap. apply pread_Ok in Hmap as (Hm0 & _ & Hlen & ->). rewrite Hlen.
  split.
  - intros Hn. zbool; try lia.
    assert (is_Some (take (Z.to_nat (Z.min gc 192))
                       (drop (Z.to_nat gmap_offset) (io self)) !! Z.to_nat n)) as [b Hb].
    { apply lookup_lt_is_Some, Nat2Z.inj_lt. fold (len (take (Z.to_nat (Z.min gc 192))
                       (drop (Z.to_nat gmap_offset) (io self)))).
      rewrite Hlen, Z2Nat.id; lia. }
    exists b. split; [exact Hb |].
    rewrite lookup_take_lt in Hb by lia. rewrite lookup_drop in Hb.
    apply lookup_lt_Some in Hb as Hlt.
    rewrite pread_inside by (unfold len, gmap_offset in *; lia).
    replace (Z.to_nat (gmap_offset + n)) with (Z.to_nat gmap_offset + Z.to_nat n)%nat
      by (unfold gmap_offset; lia).
    destruct (drop (Z.to_nat gmap_offset + Z.to_nat n) (io self)) as [| b' rest] eqn:Hd.
    + apply (f_equal length) in Hd. rewrite length_drop in Hd. cbn in Hd. lia.
    + f_equal. change (take (Z.to_nat 1) (b' :: rest)) with [b']. f_equal.
      assert (drop (Z.to_nat gmap_offset + Z.to_nat n) (io self) !! 0%nat = Some b')
        as Hfirst by (by rewrite Hd).
      rewrite lookup_drop, Nat.add_0_r in Hfirst. congruence.
  - intros Hn. zbool; try reflexivity. lia.
Qed.

Lemma read_granule_reads_the_map_witness :
  (0 <= 1 < len (take 68 (drop (Z.to_nat gmap_offset) hello_disk)) ->
   exists b, take 68 (drop (Z.to_nat gmap_offset) hello_disk) !! Z.to_nat 1 = Some b
             /\ read_granule (Make hello_disk) 1 = Ok [b])
  /\ (~ 0 <= 1 < len (take 68 (drop (Z.to_nat gmap_offset) hello_disk)) ->
      read_granule (Make hello_disk) 1
      = Raise (IndexError "granule number out of range: 1")).
Proof.
  apply (read_granule_reads_the_map (Make hello_disk)). vm_compute. reflexivity.
Defined.

(** ** Counting the allocation map *)

Lemma the_byte_of_int (c : byte) : GranuleInfo.the_byte (RawInt (byte_val c)) = Ok (byte_val c).
Proof. by rewrite <- the_byte_of_bytes. Qed.

Lemma fromraw_for_count (i : Z) (c : byte) :
  map_code_ok c = true ->
  exists gi, GranuleInfo.fromraw i (RawInt (byte_val c)) 256 Geometry.default = Ok gi
             /\ GranuleInfo.free gi = bool_decide (byte_val c = 0xff).
Proof.
  unfold map_code_ok. intros Hok. pose proof (byte_val_range c) as Hr.
  rewrite (fromraw_cases _ _ _ _ _ (the_byte_of_int c)). revert Hok.
  destruct (Z.eqb_spec (byte_val c) 0xc0) as [| Hne]; [discriminate |].
  destruct (Z.ltb_spec (byte_val c) 0xc0).
  { intros _. eexists. split; [reflexivity |]. cbn. by rewrite bool_decide_eq_false_2 by lia. }
  destruct (Z.leb_spec (byte_val c) 0xc9).
  { intros _. rewrite terminal_low_nibble by lia. unfold py_assert. cbn.
    destruct (Z.leb_spec (byte_val c - 192) 9); [| lia]. cbn.
    destruct (Z.eqb_spec (byte_val c - 192) 0); [lia |]. cbn.
    eexists. split; [reflexivity |]. cbn. by rewrite bool_decide_eq_false_2 by lia. }
  destruct (Z.leb_spec 0xca (byte_val c)); [| lia].
  destruct (Z.leb_spec (byte_val c) 0xfe); [discriminate |]. intros _.
  destruct (Z.eqb_spec (byte_val c) 0xff); [| lia].
  eexists. split; [reflexivity |]. cbn. by rewrite bool_decide_eq_true_2.
Qed.

Lemma fromraw_for_count_bad (i : Z) (c : byte) :
  map_code_ok c = false ->
  GranuleInfo.fromraw i (RawInt (byte_val c)) 256 Geometry.default
  = Raise (if byte_val c =? 0xc0 then AssertionError
           else RecoverableCorruption (GranuleOutOfRange i (byte_val c))).
Proof.
  unfold map_code_ok. intros Hbad. pose proof (byte_val_range c) as Hr.
  rewrite (fromraw_cases _ _ _ _ _ (the_byte_of_int c)). revert Hbad.
  destruct (Z.eqb_spec (byte_val c) 0xc0) as [-> | Hne]; [reflexivity |].
  destruct (Z.leb_spec 0xca (byte_val c)); [| discriminate].
  destruct (Z.leb_spec (byte_val c) 0xfe); [| discriminate]. intros _.
  destruct (Z.ltb_spec (byte_val c) 0xc0); [lia |].
  destruct (Z.leb_spec (byte_val c) 0xc9); [lia |].
  destruct (Z.eqb_spec (byte_val c) 0xff); [lia | reflexivity].
Qed.

Lemma count_free_cons (c : byte) (gmap : list byte) :
  count_free (c :: gmap) = (if bool_decide (byte_val c = 0xff) then 1 else 0) + count_free gmap.
Proof.
  unfold count_free, len. rewrite filter_cons.
  destruct (decide (byte_val c = 255)) as [Hc | Hc].
  - rewrite bool_decide_eq_true_2 by done. cbn [length]. lia.
  - rewrite bool_decide_eq_false_2 by done. lia.
Qed.

Lemma count_granules_from_clean (self : t) (gmap : list byte) :
  forall i total free used,
    Forall (fun b => map_code_ok b = true) gmap ->
    count_granules_from self i gmap (total, free, used)
    = Ok (total + len gmap, free + count_free gmap, used + (len gmap - count_free gmap)).
Proof.
  induction gmap as [| c rest IH]; intros i total free used Hok.
  - cbn. unfold count_free, len. cbn. do 2 f_equal; [f_equal |]; lia.
  - apply Forall_cons in Hok as [Hc Hok]. cbn [count_granules_from].
    change (bytes_per_sector (geom self)) with 256.
    change (geom self) with Geometry.default.
    destruct (fromraw_for_count i c Hc) as (gi & -> & Hfree). cbn [mbind outcome_bind].
    rewrite Hfree, count_free_cons.
    destruct (bool_decide (byte_val c = 255)); rewrite (IH _ _ _ _ Hok);
      unfold len; cbn [length]; do 2 f_equal; [f_equal | | f_equal |]; lia.
Qed.

Lemma count_granules_from_bad (self : t) (good : list byte) (b : byte) (rest : list byte) :
  forall i counts,
    Forall (fun c => map_code_ok c = true) good ->
    map_code_ok b = false ->
    count_granules_from self i (good ++ b :: rest) counts
    = Raise (if byte_val b =? 0xc0 then AssertionError
             else RecoverableCorruption (GranuleOutOfRange (i + len good) (byte_val b))).
Proof.
  induction good as [| c good IH]; intros i [[total free] used] Hok Hbad.
  - cbn [app count_granules_from].
    change (bytes_per_sector (geom self)) with 256.
    change (geom self) with Geometry.default.
    rewrite (fromraw_for_count_bad i b Hbad). cbn [mbind outcome_bind].
    unfold len. cbn [length]. by rewrite Z.add_0_r.
  - apply Forall_cons in Hok as [Hc Hok]. cbn [app count_granules_from].
    change (bytes_per_sector (geom self)) with 256.
    change (geom self) with Geometry.default.
    destruct (fromraw_for_count i c Hc) as (gi & -> & _). cbn [mbind outcome_bind].
    destruct (GranuleInfo.free gi); rewrite (IH _ _ Hok Hbad);
      unfold len; cbn [length];
      replace (i + 1 + Z.of_nat (length good)) with (i + Z.of_nat (S (length good))) by lia;
      reflexivity.
Qed.

(** X9: on an allocation map without the codes [0xc0] and [0xca]..[0xfe],
    [count_granules] returns the length of the map as the total, the number
    of [0xff] bytes as the free count and the rest as the used count. *)
Theorem count_granules_counts (self : t) (gmap : list byte) :
  read_granule_map self = Ok gmap ->
  Forall (fun b => map_code_ok b = true) gmap ->
  count_granules self = Ok (len gmap, count_free gmap, len gmap - count_free gmap)
  /\ 0 <= count_free gmap <= len gmap.
Proof.
  intros Hmap Hok. unfold count_granules. rewrite Hmap. cbn [mbind outcome_bind].
  rewrite (count_granules_from_clean self gmap 0 0 0 0 Hok). split; [reflexivity |].
  unfold count_free, len. pose proof (length_filter (fun b => byte_val b = 255) gmap). lia.
Qed.

Lemma count_granules_counts_witness :
  count_granules (Make hello_disk)
  = Ok (len (take 68 (drop (Z.to_nat gmap_offset) hello_disk)),
        count_free (take 68 (drop (Z.to_nat gmap_offset) hello_disk)),
        len (take 68 (drop (Z.to_nat gmap_offset) hello_disk))
        - count_free (take 68 (drop (Z.to_nat gmap_offset) hello_disk)))
  /\ 0 <= count_free (take 68 (drop (Z.to_nat gmap_offset) hello_disk))
     <= len (take 68 (drop (Z.to_nat gmap_offset) hello_disk)).
Proof.
  apply (count_granules_counts (Make hello_disk)).
  - vm_compute. reflexivity.
  - vm_compute. repeat constructor.
Defined.

(** X10: [count_granules] decodes every byte with 256 as the bytes used in
    the last sector, so the first byte of the map it cannot decode ends the
    count: [0xc0], the code of an extent with no sector used, fails the
    assertion of the decoder, and a code from [0xca] to [0xfe] raises
    [RecoverableCorruption] with the byte's index and value. *)
Theorem count_granules_first_bad_code (self : t) (good : list byte) (b : byte)
    (rest : list byte) :
  read_granule_map self = Ok (good ++ b :: rest) ->
  Forall (fun c => map_code_ok c = true) good ->
  map_code_ok b = false ->
  (byte_val b = 0xc0 \/ 0xca <= byte_val b <= 0xfe)
  /\ count_granules self
     = Raise (if byte_val b =? 0xc0 then AssertionError
              else RecoverableCorruption (GranuleOutOfRange (len good) (byte_val b))).
Proof.
  intros Hmap Hok Hbad. split.
  - unfold map_code_ok in Hbad. revert Hbad. zbool; try discriminate; lia.
  - unfold count_granules. rewrite Hmap. cbn [mbind outcome_bind].
    by rewrite (count_granules_from_bad self good b rest 0 _ Hok Hbad).
Qed.

Lemma count_granules_first_bad_code_witness :
  (byte_val xc0 = 0xc0 \/ 0xca <= byte_val xc0 <= 0xfe)
  /\ count_granules (Make empty_file_disk)
     = Raise (if byte_val xc0 =? 0xc0 then AssertionError
              else RecoverableCorruption
                     (GranuleOutOfRange (len (replicate 3 xff)) (byte_val xc0))).
Proof.
  apply (count_granules_first_bad_code (Make empty_file_disk) (replicate 3 xff) xc0
           (replicate 64 xff)).
  - vm_compute. reflexivity.
  - repeat constructor.
  - reflexivity.
Defined.

(** ** The directory as a whole *)

Lemma directory_entry_range_eq (self : t) (i : Z) :
  0 <= i < 72 ->
  directory_entry_range self i
  = Ok (directory_offset + 32 * i, directory_offset + 32 * i + 32).
Proof.
  intros Hi. unfold directory_entry_range, sector_range, sector_range_linear,
    directory_offset. cbn. zbool; try lia. do 2 f_equal; lia.
Qed.

Lemma read_directory_entry_eq (self : t) (i : Z) :
  0 <= i < 72 ->
  read_directory_entry self i = pread self 32 (directory_offset + 32 * i).
Proof.
  intros Hi. unfold read_directory_entry. rewrite (directory_entry_range_eq self i Hi).
  cbn [mbind outcome_bind]. f_equal. lia.
Qed.

Lemma read_directory_entry_inside (self : t) (i : Z) :
  0 <= i < 72 -> directory_offset + 32 * i + 32 <= len (io self) ->
  exists raw, read_directory_entry self i = Ok raw /\ len raw = 32.
Proof.
  intros Hi Hin. rewrite (read_directory_entry_eq self i Hi).
  rewrite pread_inside by (unfold directory_offset in *; lia).
  eexists. split; [reflexivity |].
  unfold len in *. rewrite length_take, length_drop. unfold directory_offset in *. lia.
Qed.

Lemma read_directory_entry_short (self : t) (i : Z) :
  0 <= i < 72 -> len (io self) < directory_offset + 32 * i + 32 ->
  read_directory_entry self i = Raise AssertionError.
Proof.
  intros Hi Hshort. rewrite (read_directory_entry_eq self i Hi). unfold pread.
  destruct ((32 <? 0) || (directory_offset + 32 * i <? 0)) eqn:Hneg.
  { apply orb_true_iff in Hneg as [Hneg | Hneg]; apply Z.ltb_lt in Hneg;
      unfold directory_offset in *; lia. }
  unfold py_assert.
  destruct (Z.eqb_spec
              (len (take (Z.to_nat 32)
                      (drop (Z.to_nat (directory_offset + 32 * i)) (io self)))) 32)
    as [Heq | Hne]; [| reflexivity].
  exfalso. unfold len in *. rewrite length_take, length_drop in Heq.
  unfold directory_offset in *. lia.
Qed.

Lemma directory_fromraw_Ok (i : Z) (raw : list byte) (geom : Geometry.t) :
  len raw = 32 -> exists d, DirectoryEntry.fromraw i raw geom = Ok d.
Proof.
  intros Hlen. unfold DirectoryEntry.fromraw. rewrite Hlen. cbn. eauto.
Qed.

Lemma iter_directory_entries_over_ending_ok (self : t) (include_free : bool)
    (slots : list Z) :
  directory_offset + 32 * 72 <= len (io self) ->
  Forall (fun i => 0 <= i < 72) slots ->
  ending (iter_directory_entries_over self include_free slots) = Ok tt.
Proof.
  intros Hlarge. induction slots as [| i rest IH]; intros Hslots; [reflexivity |].
  apply Forall_cons in Hslots as [Hi Hslots]. specialize (IH Hslots).
  cbn [iter_directory_entries_over].
  destruct (read_directory_entry_inside self i Hi ltac:(lia)) as (raw & -> & Hlen).
  cbn [mbind outcome_bind].
  destruct (directory_fromraw_Ok i raw (geom self) Hlen) as [d ->].
  destruct (DirectoryEntry.null d); [exact IH |].
  destruct (DirectoryEntry.free d && negb include_free); [exact IH | exact IH].
Qed.

Lemma iter_directory_entries_over_ending_short (self : t) (include_free : bool)
    (slots : list Z) :
  Forall (fun i => 0 <= i < 72) slots ->
  Exists (fun i => len (io self) < directory_offset + 32 * i + 32) slots ->
  ending (iter_directory_entries_over self include_free slots) = Raise AssertionError.
Proof.
  induction slots as [| i rest IH]; intros Hslots Hshort; [by inversion Hshort |].
  apply Forall_cons in Hslots as [Hi Hslots].
  cbn [iter_directory_entries_over].
  destruct (Z.lt_ge_cases (len (io self)) (directory_offset + 32 * i + 32)) as [Hs | Hl].
  - by rewrite (read_directory_entry_short self i Hi Hs).
  - apply Exists_cons in Hshort as [Hshort | Hshort]; [lia |]. specialize (IH Hslots Hshort).
    destruct (read_directory_entry_inside self i Hi Hl) as (raw & -> & Hlen).
    cbn [mbind outcome_bind].
    destruct (directory_fromraw_Ok i raw (geom self) Hlen) as [d ->].
    destruct (DirectoryEntry.null d); [exact IH |].
    destruct (DirectoryEntry.free d && negb include_free); [exact IH | exact IH].
Qed.

Lemma iter_directory_entries_over_length (self : t) (include_free : bool) (slots : list Z) :
  (length (yielded (iter_directory_entries_over self include_free slots))
   <= length slots)%nat.
Proof.
  induction slots as [| i rest IH]; [cbn; lia |].
  cbn [iter_directory_entries_over].
  destruct (read_directory_entry self i ≫= _) as [d | e |]; [| cbn; lia ..].
  destruct (DirectoryEntry.null d); [cbn [length]; lia |].
  destruct (DirectoryEntry.free d && negb include_free); cbn [length yielded gen_yield]; lia.
Qed.

Lemma slots_in_range (self : t) :
  Forall (fun i => 0 <= i < 72) (seqZ 0 (max_directory_entries (geom self))).
Proof. apply Forall_seqZ. change (max_directory_entries (geom self)) with 72. lia. Qed.

Lemma count_directory_entries_fold (ds : list DirectoryEntry.t) :
  forall total free used,
    foldl (fun '(total_count, free_count, used_count) dentry =>
             if DirectoryEntry.free dentry
             then (total_count + 1, free_count + 1, used_count)
             else (total_count + 1, free_count, used_count + 1))
          (total, free, used) ds
    = (total + len ds,
       free + len (filter (fun d => DirectoryEntry.free d = true) ds),
       used + len (filter (fun d => DirectoryEntry.free d = false) ds)).
Proof.
  induction ds as [| d rest IH]; intros total free used.
  - unfold len. cbn. apply f_equal2; [apply f_equal2 |]; lia.
  - cbn [foldl]. rewrite !filter_cons. unfold len in *.
    destruct (DirectoryEntry.free d) eqn:Hf; rewrite IH.
    + destruct (decide (true = true)); [| done].
      destruct (decide (true = false)); [done |].
      cbn [length]. apply f_equal2; [apply f_equal2 |]; lia.
    + destruct (decide (false = true)); [done |].
      destruct (decide (false = false)); [| done].
      cbn [length]. apply f_equal2; [apply f_equal2 |]; lia.
Qed.

Lemma filter_free_split (ds : list DirectoryEntry.t) :
  len (filter (fun d => DirectoryEntry.free d = true) ds)
  + len (filter (fun d => DirectoryEntry.free d = false) ds) = len ds.
Proof.
  induction ds as [| d rest IH]; [reflexivity |].
  rewrite !filter_cons. unfold len in *.
  destruct (DirectoryEntry.free d).
  - destruct (decide (true = true)); [| done]. destruct (decide (true = false)); [done |].
    cbn [length]. lia.
  - destruct (decide (false = true)); [done |]. destruct (decide (false = false)); [| done].
    cbn [length]. lia.
Qed.

(** X12: on an image that ends before the directory does (shorter than 81152
    bytes), enumerating the directory ends with the [AssertionError] of the
    short read, not with [FilesystemFatalError]: no size check guards the
    directory; counting the entries fails the same way, and so does a lookup
    of a name none of the entries read so far has. *)
Theorem directory_enumeration_short_image (self : t) (include_free : bool)
    (name : list Z) :
  len (io self) < 81152 ->
  ending (iter_directory_entries self include_free) = Raise AssertionError
  /\ count_directory_entries self = Raise AssertionError
  /\ (Forall (fun d => pretty_filename d <> name)
        (yielded (iter_directory_entries self false)) ->
      directory_lookup self name = Raise AssertionError).
Proof.
  intros Hshort.
  assert (forall incl, ending (iter_directory_entries self incl) = Raise AssertionError)
    as Hend.
  { intros incl. apply iter_directory_entries_over_ending_short; [apply slots_in_range |].
    apply Exists_exists. exists 71. split.
    - apply elem_of_seqZ. change (max_directory_entries (geom self)) with 72. lia.
    - unfold directory_offset. lia. }
  split; [apply Hend |]. split.
  - unfold count_directory_entries. rewrite count_directory_entries_fold, Hend. reflexivity.
  - intros Hnone. unfold directory_lookup.
    destruct (find _ _) as [d |] eqn:Hfind.
    + apply find_some in Hfind as [Hin Hname]. apply bool_decide_eq_true in Hname.
      rewrite Forall_forall in Hnone. apply list_elem_of_In in Hin.
      by destruct (Hnone d Hin).
    + by rewrite Hend.
Qed.

Lemma directory_enumeration_short_image_witness :
  ending (iter_directory_entries (Make []) false) = Raise AssertionError
  /\ count_directory_entries (Make []) = Raise AssertionError
  /\ (Forall (fun d => pretty_filename d <> hello_name)
        (yielded (iter_directory_entries (Make []) false)) ->
      directory_lookup (Make []) hello_name = Raise AssertionError).
Proof.
  apply (directory_enumeration_short_image (Make []) false hello_name).
  unfold len. cbn. lia.
Defined.

(** ** Looking a name up *)

Lemma find_first {A : Type} (f : A -> bool) (l : list A) (x : A) :
  find f l = Some x ->
  exists l1 l2, l = l1 ++ x :: l2 /\ f x = true /\ Forall (fun y => f y = false) l1.
Proof.
  induction l as [| y l IH]; [discriminate |]. cbn.
  destruct (f y) eqn:Hy.
  - intros [= ->]. exists [], l. split; [reflexivity |]. split; [exact Hy | constructor].
  - intros Hfind. destruct (IH Hfind) as (l1 & l2 & -> & Hx & Hl1).
    exists (y :: l1), l2. split; [reflexivity |]. split; [exact Hx |]. by constructor.
Qed.




(** ** Continuation entries *)


(** ** Decoding a directory slot *)

(** X15: [DirectoryEntry.fromraw] refuses a buffer that is not 32 bytes long
    and loses nothing of one that is: the buffer is the filename (8 bytes),
    the extension (3), the file type, the ASCII flag, the first extent, the
    big-endian count of bytes used in the last sector (below 65536) and the
    16 reserved bytes, in that order; and a null entry is always a free
    one. *)
Theorem directory_fromraw_layout (i : Z) (raw : list byte) (geom : Geometry.t) :
  (len raw <> 32 -> DirectoryEntry.fromraw i raw geom = Raise StructError)
  /\ (len raw = 32 ->
      exists d ft af fg hi lo,
        DirectoryEntry.fromraw i raw geom = Ok d
        /\ DirectoryEntry.n d = i
        /\ raw = DirectoryEntry.filename d ++ DirectoryEntry.extension d
                 ++ [ft; af; fg; hi; lo] ++ DirectoryEntry._reserved d
        /\ length (DirectoryEntry.filename d) = 8%nat
        /\ length (DirectoryEntry.extension d) = 3%nat
        /\ length (DirectoryEntry._reserved d) = 16%nat
        /\ DirectoryEntry.filetype d = byte_val ft
        /\ DirectoryEntry.ascii_flag d = byte_val af
        /\ DirectoryEntry.first_granule d = byte_val fg
        /\ DirectoryEntry.last_sector_bytes_used d = 256 * byte_val hi + byte_val lo
        /\ 0 <= DirectoryEntry.last_sector_bytes_used d < 65536
        /\ (DirectoryEntry.null d = true -> DirectoryEntry.free d = true)).
Proof.
  split.
  - intros Hlen. unfold DirectoryEntry.fromraw.
    destruct (Z.eqb_spec (len raw) 32); [done | reflexivity].
  - intros Hlen. unfold len in Hlen.
    do 32 (destruct raw as [| ? raw]; [cbn in Hlen; lia |]).
    destruct raw; [| cbn in Hlen; lia]. clear Hlen.
    eexists _, b10, b11, b12, b13, b14. split; [reflexivity |]. cbn.
    pose proof (byte_val_range b13). pose proof (byte_val_range b14).
    repeat (split; [first [reflexivity | lia] |]).
    intros Hnull. apply orb_true_iff. left.
    change 0 with (byte_val x00) in Hnull.
    apply set_is_spec in Hnull as [_ Hall]. apply Forall_inv in Hall as ->. reflexivity.
Qed.

(** ** File names *)

Lemma decode_byte_inverse (b : byte) :
  (fun c => if 0xdc00 <=? c then Some (Z.to_nat (c - 0xdc00))
            else fst <$> list_find (fun x => x = c) decoding_table)
    (option.default (0xdc00 + byte_val b) (decoding_table !! Z.to_nat (byte_val b)))
  = Some (Z.to_nat (byte_val b)).
Proof. destruct b; vm_compute; reflexivity. Qed.

(** X16: decoding a name through the [tandycoco-hires] table with
    [surrogateescape] keeps its length, maps every byte below 128 to itself,
    and is injective: two different byte strings never decode to the same
    text. *)
Theorem decode_tandycoco_injective :
  (forall bs1 bs2, decode_tandycoco bs1 = decode_tandycoco bs2 -> bs1 = bs2)
  /\ (forall bs, length (decode_tandycoco bs) = length bs)
  /\ (forall bs, Forall (fun b => byte_val b < 128) bs ->
                 decode_tandycoco bs = byte_val <$> bs).
Proof.
  split; [| split].
  - intros bs1. induction bs1 as [| b1 bs1 IH]; intros [| b2 bs2] Heq;
      try discriminate; [reflexivity |].
    unfold decode_tandycoco in Heq. cbn [fmap list_fmap] in Heq.
    injection Heq as Hb Hrest. f_equal; [| by apply IH].
    apply byte_val_inj. apply Z2Nat.inj; [apply byte_val_range .. |].
    pose proof (decode_byte_inverse b1) as H1. pose proof (decode_byte_inverse b2) as H2.
    cbv beta in H1, H2. rewrite Hb in H1. congruence.
  - intros bs. unfold decode_tandycoco. apply length_fmap.
  - intros bs Hascii. unfold decode_tandycoco.
    induction Hascii as [| b bs Hb _ IH]; [reflexivity |].
    cbn [fmap list_fmap]. f_equal; [| exact IH].
    pose proof (byte_val_range b) as Hr.
    unfold decoding_table. rewrite lookup_app_l by (rewrite length_seqZ; lia).
    rewrite lookup_seqZ_lt by lia. cbn. lia.
Qed.

Lemma rstrip_space_spec (bs : list byte) :
  exists k, bs = DirectoryEntry.rstrip_space bs ++ replicate k x20
            /\ last (DirectoryEntry.rstrip_space bs) <> Some x20.
Proof.
  induction bs as [| b bs (k & Hbs & Hlast)]; [by exists 0%nat |].
  cbn [DirectoryEntry.rstrip_space].
  destruct (DirectoryEntry.rstrip_space bs) as [| r rs] eqn:Hr.
  - destruct (Z.eqb_spec (byte_val b) 32) as [Hb | Hb].
    + exists (S k). split; [| done]. cbn in *. rewrite <- Hbs.
      f_equal. apply byte_val_inj. exact Hb.
    + exists k. split; [cbn in *; by rewrite <- Hbs |].
      cbn. intros [= ->]. by apply Hb.
  - exists k. split; [cbn in *; by rewrite <- Hbs |]. by rewrite last_cons_cons.
Qed.

(** X17: the pretty name of an entry is its filename and its extension, each
    without its trailing spaces (and only those), joined by a dot; so it is
    never empty. *)
Theorem pretty_filename_bytes_strips_padding (dentry : DirectoryEntry.t) :
  exists name ext kn ke,
    DirectoryEntry.filename dentry = name ++ replicate kn x20
    /\ DirectoryEntry.extension dentry = ext ++ replicate ke x20
    /\ last name <> Some x20 /\ last ext <> Some x20
    /\ DirectoryEntry.pretty_filename_bytes dentry = name ++ [x2e] ++ ext
    /\ length (pretty_filename dentry) = (length name + 1 + length ext)%nat.
Proof.
  destruct (rstrip_space_spec (DirectoryEntry.filename dentry)) as (kn & Hn & Hln).
  destruct (rstrip_space_spec (DirectoryEntry.extension dentry)) as (ke & He & Hle).
  exists (DirectoryEntry.rstrip_space (DirectoryEntry.filename dentry)),
         (DirectoryEntry.rstrip_space (DirectoryEntry.extension dentry)), kn, ke.
  repeat split; try done.
  unfold pretty_filename, decode_tandycoco, DirectoryEntry.pretty_filename_bytes.
  rewrite length_fmap, !length_app. cbn [length]. lia.
Qed.

(** ** The write path's searches *)

(** X18: the slot [_find_free_direntry] returns is a free slot that is not
    null (an all-zero slot is never offered), and the lowest such slot. *)
Theorem find_free_direntry_first_free (self : t) (d : DirectoryEntry.t) :
  WritableRSDOSFilesystem._find_free_direntry self = Ok d ->
  d ∈ yielded (iter_directory_entries self true)
  /\ DirectoryEntry.free d = true
  /\ DirectoryEntry.null d = false
  /\ (forall d', d' ∈ yielded (iter_directory_entries self true) ->
                 DirectoryEntry.free d' = true ->
                 DirectoryEntry.n d <= DirectoryEntry.n d').
Proof.
  unfold WritableRSDOSFilesystem._find_free_direntry.
  pose proof (iter_directory_entries_over_spec self true
                (seqZ 0 (max_directory_entries (geom self)))) as Hspec.
  pose proof (iter_directory_entries_over_sorted self true
                (seqZ 0 (max_directory_entries (geom self)))
                (seqZ_sorted 72 0)) as Hsorted.
  fold (iter_directory_entries self true) in Hspec, Hsorted.
  destruct (find _ (yielded (iter_directory_entries self true))) as [d0 |] eqn:Hfind.
  - intros [= <-].
    destruct (find_first _ _ _ Hfind) as (l1 & l2 & Hl & Hfree & Hl1).
    assert (d0 ∈ yielded (iter_directory_entries self true)) as Hin.
    { rewrite Hl. apply elem_of_app. right. left. }
    rewrite Forall_forall in Hspec. destruct (Hspec d0 Hin) as (_ & _ & Hnull & _).
    repeat split; try done.
    intros d' Hd' Hfree'. rewrite Hl in Hd', Hsorted.
    rewrite fmap_app, fmap_cons in Hsorted.
    apply StronglySorted_app in Hsorted as (_ & _ & Hsorted).
    apply StronglySorted_cons in Hsorted as [Hlt _].
    apply elem_of_app in Hd' as [Hd' | Hd'].
    + rewrite Forall_forall in Hl1. specialize (Hl1 d' Hd'). congruence.
    + apply elem_of_cons in Hd' as [-> | Hd']; [lia |].
      rewrite Forall_forall in Hlt.
      assert (DirectoryEntry.n d0 < DirectoryEntry.n d'); [| lia].
      apply Hlt, list_elem_of_fmap. eauto.
  - destruct (ending (iter_directory_entries self true)) as [[] | e |]; discriminate.
Qed.

Lemma find_free_direntry_first_free_witness :
  blank_dentry_0 ∈ yielded (iter_directory_entries (Make blank_disk) true)
  /\ DirectoryEntry.free blank_dentry_0 = true
  /\ DirectoryEntry.null blank_dentry_0 = false
  /\ (forall d', d' ∈ yielded (iter_directory_entries (Make blank_disk) true) ->
                 DirectoryEntry.free d' = true ->
                 DirectoryEntry.n blank_dentry_0 <= DirectoryEntry.n d').
Proof.
  apply (find_free_direntry_first_free (Make blank_disk) blank_dentry_0).
  vm_compute. reflexivity.
Defined.

(** X19: when the directory was read to its end and none of the entries it
    shows is free, [_find_free_direntry] raises [DiskFullError]; a directory
    of all-zero slots shows no entry at all, so it is full in this sense. *)
Theorem find_free_direntry_full (self : t) :
  ending (iter_directory_entries self true) = Ok tt ->
  Forall (fun d => DirectoryEntry.free d = false)
    (yielded (iter_directory_entries self true)) ->
  WritableRSDOSFilesystem._find_free_direntry self = Raise DiskFullError.
Proof.
  intros Hend Hnone. unfold WritableRSDOSFilesystem._find_free_direntry.
  destruct (find _ (yielded (iter_directory_entries self true))) as [d0 |] eqn:Hfind.
  - apply find_some in Hfind as [Hin Hfree]. apply list_elem_of_In in Hin.
    rewrite Forall_forall in Hnone. specialize (Hnone d0 Hin). congruence.
  - by rewrite Hend.
Qed.

Lemma find_free_direntry_full_witness :
  WritableRSDOSFilesystem._find_free_direntry (Make zero_disk) = Raise DiskFullError.
Proof.
  apply (find_free_direntry_full (Make zero_disk)).
  - vm_compute. reflexivity.
  - vm_compute. constructor.
Defined.

(** ** Positioned writes and reads *)

(** X21: a positioned write at an offset [>= 0] reports the length of the
    buffer, and a positioned read of that length at that offset then returns
    the buffer; a write of no byte leaves the image as it is; a write of at
    least one byte grows the image to the end of the write when that lies
    past its end; and no byte of the image outside the written range
    changes. *)
Theorem pwrite_then_pread (self : t) (buf : list byte) (offset : Z) :
  0 <= offset ->
  fst (WritableRSDOSFilesystem.pwrite self buf offset) = Ok (len buf)
  /\ pread (snd (WritableRSDOSFilesystem.pwrite self buf offset)) (len buf) offset = Ok buf
  /\ (buf = [] -> snd (WritableRSDOSFilesystem.pwrite self buf offset) = self)
  /\ (buf <> [] ->
      len (io (snd (WritableRSDOSFilesystem.pwrite self buf offset)))
      = Z.max (len (io self)) (offset + len buf))
  /\ (forall i : nat,
        Z.of_nat i < offset \/ offset + len buf <= Z.of_nat i ->
        (i < length (io self))%nat ->
        io (snd (WritableRSDOSFilesystem.pwrite self buf offset)) !! i = io self !! i).
Proof.
  intros Hoff. unfold WritableRSDOSFilesystem.pwrite.
  destruct (Z.ltb_spec offset 0); [lia |].
  destruct buf as [| b buf'].
  { cbn [fst snd]. split; [reflexivity |]. split; [| by repeat split].
    unfold pread, py_assert, len. cbn [length].
    destruct (Z.ltb_spec offset 0); [lia |]. reflexivity. }
  set (buf := b :: buf'). cbn [fst snd io].
  set (old := io self ++ replicate (Z.to_nat offset - length (io self)) x00).
  assert (length old = (length (io self) `max` Z.to_nat offset)%nat) as Hold.
  { subst old. rewrite length_app, length_replicate. lia. }
  assert (length (take (Z.to_nat offset) old) = Z.to_nat offset) as Htake.
  { rewrite length_take. lia. }
  split; [reflexivity |]. split; [| split; [done | split]].
  - unfold pread. destruct (Z.ltb_spec (len buf) 0); [unfold len in *; lia |].
    destruct (Z.ltb_spec offset 0); [lia |]. cbn [orb].
    cbn [io]. rewrite (drop_app_length' _ _ _ (eq_sym Htake)).
    unfold len. rewrite Nat2Z.id, take_app_length. unfold py_assert.
    by rewrite Z.eqb_refl.
  - intros _. unfold len. rewrite !length_app, Htake, length_drop. lia.
  - intros i Hi Hlt. destruct Hi as [Hi | Hi].
    + rewrite lookup_app_l by lia. rewrite lookup_take_lt by lia.
      subst old. by rewrite lookup_app_l.
    + unfold len in Hi. rewrite lookup_app_r by lia. rewrite lookup_app_r by lia.
      rewrite lookup_drop, Htake.
      replace (Z.to_nat offset + length buf + (i - Z.to_nat offset - length buf))%nat
        with i by lia.
      subst old. by rewrite lookup_app_l.
Qed.

Lemma pwrite_then_pread_witness :
  fst (WritableRSDOSFilesystem.pwrite (Make [x00; x01]) [x41; x42] 4) = Ok (len [x41; x42])
  /\ pread (snd (WritableRSDOSFilesystem.pwrite (Make [x00; x01]) [x41; x42] 4))
       (len [x41; x42]) 4 = Ok [x41; x42]
  /\ ([x41; x42] = [] ->
      snd (WritableRSDOSFilesystem.pwrite (Make [x00; x01]) [x41; x42] 4) = Make [x00; x01])
  /\ ([x41; x42] <> [] ->
      len (io (snd (WritableRSDOSFilesystem.pwrite (Make [x00; x01]) [x41; x42] 4)))
      = Z.max (len (io (Make [x00; x01]))) (4 + len [x41; x42]))
  /\ (forall i : nat,
        Z.of_nat i < 4 \/ 4 + len [x41; x42] <= Z.of_nat i ->
        (i < length (io (Make [x00; x01])))%nat ->
        io (snd (WritableRSDOSFilesystem.pwrite (Make [x00; x01]) [x41; x42] 4)) !! i
        = io (Make [x00; x01]) !! i).
Proof. apply (pwrite_then_pread (Make [x00; x01]) [x41; x42] 4). lia. Defined.

(** ** Reading without a length *)

Lemma iter_file_contents_over_unbounded (self : t) (g0 b0 : Z) (gis : list GranuleInfo.t)
    (fin : outcome unit) :
  (length (yielded (iter_file_contents_over self g0 b0 gis fin None)) <= 1)%nat
  /\ (yielded (iter_file_contents_over self g0 b0 gis fin None) <> [] ->
      ending (iter_file_contents_over self g0 b0 gis fin None) = Raise TypeError).
Proof.
  induction gis as [| gi rest IH]; [cbn; split; [lia | done] |].
  rewrite iter_file_contents_over_cons.
  destruct (GranuleInfo.free gi); [cbn; split; [lia | done] |].
  destruct (GranuleInfo.n gi <? g0); [exact IH |].
  destruct (pread self _ _) as [data | e |]; cbn; split; (lia || done).
Qed.

(** X22: with its default [length=None], [iter_file_contents] yields at most
    one chunk: after the first chunk, subtracting its length from [None]
    raises [TypeError]. *)
Theorem iter_file_contents_unbounded_stops (self : t) (dentry : DirectoryEntry.t)
    (offset : Z) :
  (length (yielded (iter_file_contents self dentry None offset)) <= 1)%nat
  /\ (yielded (iter_file_contents self dentry None offset) <> [] ->
      ending (iter_file_contents self dentry None offset) = Raise TypeError).
Proof.
  unfold iter_file_contents. cbv beta iota zeta. apply iter_file_contents_over_unbounded.
Qed.

Lemma iter_file_contents_unbounded_stops_witness :
  ending (iter_file_contents (Make hello_disk) hello_dentry None 0) = Raise TypeError.
Proof.
  apply (proj2 (iter_file_contents_unbounded_stops (Make hello_disk) hello_dentry 0)).
  vm_compute. discriminate.
Defined.

(** ** The errors of a walk *)

Lemma granule_count_Ok_large (self : t) (gc : Z) :
  granule_count self = Ok gc -> 82944 <= len (io self).
Proof.
  unfold granule_count. intros H. apply bind_Ok in H as (sc & Hsc & _).
  apply sector_count_Ok in Hsc as [-> Hmin]. dlia.
Qed.

Lemma granule_count_errors (self : t) (e : exn) :
  granule_count self = Raise e -> e = FilesystemFatalError.
Proof.
  unfold granule_count. rewrite sector_count_eq.
  destruct (_ <? _); cbn; [by intros [= <-] | discriminate].
Qed.

Lemma read_granule_errors (self : t) (n : Z) (e : exn) :
  read_granule self n = Raise e ->
  e = FilesystemFatalError \/ e = IndexError ("granule number out of range: " +:+ pretty n).
Proof.
  unfold read_granule. rewrite granule_map_range_eq.
  destruct (granule_count self) as [gc | e' |] eqn:Hgc; cbn [mbind outcome_bind].
  - destruct (negb _ || negb _) eqn:Hchk; [intros [= <-]; by right |].
    apply orb_false_iff in Hchk as [H1 _].
    apply negb_false_iff, andb_true_iff in H1 as [H1a H1b].
    apply Z.leb_le in H1a. apply Z.ltb_lt in H1b.
    apply granule_count_Ok_large in Hgc.
    rewrite pread_inside by (unfold gmap_offset in *; lia). discriminate.
  - intros [= <-]. left. by apply granule_count_errors in Hgc.
  - discriminate.
Qed.

Lemma entry_at_errors (self : t) (lsbu n : Z) (e : exn) :
  entry_at self lsbu n = Raise e ->
  e = FilesystemFatalError
  \/ e = IndexError ("granule number out of range: " +:+ pretty n)
  \/ (e = AssertionError /\ lsbu <> 0)
  \/ exists b, 0xca <= b <= 0xfe /\ e = RecoverableCorruption (GranuleOutOfRange n b).
Proof.
  unfold entry_at. destruct (read_granule self n) as [raw | e' |] eqn:Hraw;
    cbn [mbind outcome_bind]; [| | discriminate].
  - apply read_granule_Ok in Hraw as [_ [b ->]].
    assert (GranuleInfo.the_byte (RawBytes [b]) = Ok (byte_val b)) as Hb by reflexivity.
    rewrite (fromraw_cases _ _ _ _ _ Hb). pose proof (byte_val_range b) as Hr.
    destruct (Z.ltb_spec (byte_val b) 192); [discriminate |].
    destruct (Z.leb_spec (byte_val b) 201).
    { rewrite terminal_low_nibble by lia. unfold py_assert. cbn.
      destruct (Z.leb_spec (byte_val b - 192) 9); [| lia]. cbn.
      destruct (Z.eqb_spec (byte_val b - 192) 0); [| discriminate].
      destruct (Z.eqb_spec lsbu 0); cbn; [discriminate |].
      intros [= <-]. right. right. left. done. }
    destruct (Z.eqb_spec (byte_val b) 255); [discriminate |].
    intros [= <-]. right. right. right. exists (byte_val b). split; [lia | done].
  - intros [= <-]. apply read_granule_errors in Hraw as [-> | ->]; auto.
Qed.

Lemma iter_granules_loop_errors (self : t) (lsbu : Z) (fuel : nat) :
  forall (seen : gset Z) (n : Z) (e : exn),
    ending (iter_granules_loop self lsbu fuel seen n) = Raise e ->
    e = FilesystemFatalError
    \/ (exists m : Z, e = IndexError ("granule number out of range: " +:+ pretty m))
    \/ (e = AssertionError /\ lsbu <> 0)
    \/ (exists m b, 0xca <= b <= 0xfe /\ e = RecoverableCorruption (GranuleOutOfRange m b))
    \/ e = RecoverableCorruption LoopInGranuleMap.
Proof.
  induction fuel as [| fuel IH]; intros seen n e; [discriminate |].
  rewrite iter_granules_loop_S.
  destruct (entry_at self lsbu n) as [gi | e' |] eqn:Hgi; cbn; [| | discriminate].
  - destruct (GranuleInfo.last gi) eqn:Hlast; cbn; [discriminate |].
    apply entry_at_Ok in Hgi as [_ [b Hb]].
    apply granule_fromraw_fields in Hb as (_ & _ & Hnext). rewrite (Hnext Hlast).
    case_bool_decide; cbn; [intros [= <-]; auto 10 | apply IH].
  - intros [= <-]. apply entry_at_errors in Hgi as [-> | [-> | [[-> Hl] | (b & Hb & ->)]]];
      eauto 10.
Qed.

(** X23: a walk fails in five ways only: [FilesystemFatalError] (image too
    small), [IndexError] (an extent index outside the allocation map),
    [AssertionError] (code [0xc0] while [last_sector_bytes_used] is not 0),
    [RecoverableCorruption] for a code from [0xca] to [0xfe], or
    [RecoverableCorruption] for a loop; with [last_sector_bytes_used = 0] the
    assertion cannot fail. *)
Theorem iter_granules_errors (self : t) (first_granule lsbu : Z) (e : exn) :
  ending (iter_granules self first_granule lsbu) = Raise e ->
  e = FilesystemFatalError
  \/ (exists m : Z, e = IndexError ("granule number out of range: " +:+ pretty m))
  \/ (e = AssertionError /\ lsbu <> 0)
  \/ (exists m b, 0xca <= b <= 0xfe /\ e = RecoverableCorruption (GranuleOutOfRange m b))
  \/ e = RecoverableCorruption LoopInGranuleMap.
Proof. apply iter_granules_loop_errors. Qed.

Lemma iter_granules_errors_witness :
  RecoverableCorruption LoopInGranuleMap = FilesystemFatalError
  \/ (exists m : Z, RecoverableCorruption LoopInGranuleMap
                 = IndexError ("granule number out of range: " +:+ pretty m))
  \/ (RecoverableCorruption LoopInGranuleMap = AssertionError /\ 0 <> 0)
  \/ (exists m b, 0xca <= b <= 0xfe
                  /\ RecoverableCorruption LoopInGranuleMap
                     = RecoverableCorruption (GranuleOutOfRange m b))
  \/ RecoverableCorruption LoopInGranuleMap = RecoverableCorruption LoopInGranuleMap.
Proof.
  apply (iter_granules_errors (Make cycle_disk) 5 0). vm_compute. reflexivity.
Defined.

(** X24: a walk that starts at an extent index outside the allocation map of
    a large enough image yields nothing and raises [IndexError]; so do the
    size and the read of a directory entry with such a first extent. *)
Theorem iter_granules_start_out_of_range (self : t) (dentry : DirectoryEntry.t)
    (gmap : list byte) (length_ offset : Z) :
  read_granule_map self = Ok gmap ->
  ~ 0 <= DirectoryEntry.first_granule dentry < len gmap ->
  iter_dentry_granules self dentry
  = Gen [] (Raise (IndexError ("granule number out of range: "
                       +:+ pretty (DirectoryEntry.first_granule dentry))))
  /\ get_file_sizes self dentry = Raise (IndexError ("granule number out of range: "
                       +:+ pretty (DirectoryEntry.first_granule dentry)))
  /\ pread_file self dentry length_ offset
     = Raise (IndexError ("granule number out of range: "
                       +:+ pretty (DirectoryEntry.first_granule dentry))).
Proof.
  intros Hmap Hout.
  assert (read_granule self (DirectoryEntry.first_granule dentry)
          = Raise (IndexError ("granule number out of range: "
                       +:+ pretty (DirectoryEntry.first_granule dentry)))) as Hread.
  { revert Hmap. unfold read_granule_map, read_granule. rewrite granule_map_range_eq.
    destruct (granule_count self) as [gc | e |]; cbn; [| discriminate ..].
    replace (gmap_offset + Z.min gc 192 - gmap_offset) with (Z.min gc 192) by lia.
    intros Hmap. apply pread_Ok in Hmap as (_ & _ & Hlen & _). rewrite Hlen in Hout.
    zbool; try reflexivity. lia. }
  assert (iter_dentry_granules self dentry
          = Gen [] (Raise (IndexError ("granule number out of range: "
                       +:+ pretty (DirectoryEntry.first_granule dentry))))) as Hwalk.
  { unfold iter_dentry_granules, iter_granules, iter_granules_fuel.
    rewrite iter_granules_loop_S. unfold entry_at. rewrite Hread. reflexivity. }
  split; [exact Hwalk |]. split.
  - unfold get_file_sizes. rewrite Hwalk. reflexivity.
  - rewrite pread_file_eq. cbv zeta. rewrite Hwalk. reflexivity.
Qed.

Lemma iter_granules_start_out_of_range_witness :
  iter_dentry_granules (Make blank_disk) blank_dentry_0
  = Gen [] (Raise (IndexError "granule number out of range: 255"))
  /\ get_file_sizes (Make blank_disk) blank_dentry_0
     = Raise (IndexError "granule number out of range: 255")
  /\ pread_file (Make blank_disk) blank_dentry_0 10 0
     = Raise (IndexError "granule number out of range: 255").
Proof.
  apply (iter_granules_start_out_of_range (Make blank_disk) blank_dentry_0
           (replicate 68 xff) 10 0).
  - vm_compute. reflexivity.
  - vm_compute. intros [_ H]. discriminate H.
Defined.

(** ** Reading a chain with a free entry *)

(** X25: a read of a file whose chain holds a free entry fails with the
    [AssertionError] of [assert not gi.free], whatever the length and the
    offset, although [get_file_sizes] reports a size for the same entry. *)
Theorem pread_file_asserts_on_free_entry (self : t) (dentry : DirectoryEntry.t)
    (length_ offset : Z) :
  Exists (fun gi => GranuleInfo.free gi = true)
    (yielded (iter_dentry_granules self dentry)) ->
  pread_file self dentry length_ offset = Raise AssertionError
  /\ exists size alloc, get_file_sizes self dentry = Ok (size, 256, alloc).
Proof.
  intros Hfree. split.
  - rewrite pread_file_eq. cbv zeta.
    by rewrite (iter_file_contents_over_free self
                  (DirectoryEntry.last_sector_bytes_used dentry) _ _ _ _
                  (iter_granules_entries self _ _) Hfree).
  - apply Exists_exists in Hfree as (gi & Hin & Hf).
    pose proof (iter_granules_entries self (DirectoryEntry.first_granule dentry)
                  (DirectoryEntry.last_sector_bytes_used dentry)) as Hentries.
    fold (iter_dentry_granules self dentry) in Hentries.
    rewrite Forall_forall in Hentries. specialize (Hentries gi Hin).
    apply entry_at_Ok in Hentries as [_ [b Hb]].
    apply granule_fromraw_fields in Hb as (_ & Hfl & _). destruct (Hfl Hf) as [Hlast _].
    apply list_elem_of_lookup in Hin as [i Hi].
    destruct (iter_granules_terminal_ends self _ _ i gi Hi Hlast) as [_ Hend].
    unfold get_file_sizes. rewrite get_file_sizes_fold.
    fold (iter_dentry_granules self dentry) in Hend. rewrite Hend.
    eexists _, _. reflexivity.
Qed.

Lemma pread_file_asserts_on_free_entry_witness :
  pread_file (Make dangling_disk) dangling_dentry 10 0 = Raise AssertionError
  /\ exists size alloc,
       get_file_sizes (Make dangling_disk) dangling_dentry = Ok (size, 256, alloc).
Proof.
  apply (pread_file_asserts_on_free_entry (Make dangling_disk) dangling_dentry 10 0).
  vm_compute. right. left. reflexivity.
Defined.

(** ** Reading at an offset a file stored from extent 0 on *)








(** * The chain and the directory, against the bytes of the image *)

(** ** The chain on disk *)

Lemma map_byte_Some (self : t) (n : Z) (b : byte) :
  map_byte self n = Some b ->
  82944 <= len (io self)
  /\ 0 <= n < Z.min ((len (io self) / 256 - 18) / 9) 192
  /\ io self !! Z.to_nat (gmap_offset + n) = Some b.
Proof.
  unfold map_byte. cbv zeta. zbool; try discriminate. intros Hb. repeat split; try lia. exact Hb.
Qed.

Lemma map_byte_in_range (self : t) (n : Z) :
  82944 <= len (io self) ->
  0 <= n < Z.min ((len (io self) / 256 - 18) / 9) 192 ->
  is_Some (map_byte self n).
Proof.
  intros Hlarge Hn. unfold map_byte. cbv zeta. zbool; try lia.
  apply lookup_lt_is_Some. unfold len, gmap_offset in *. lia.
Qed.

(** [read_granule] reads the byte the image has for the extent. *)
Lemma read_granule_map_byte (self : t) (n : Z) (b : byte) :
  map_byte self n = Some b -> read_granule self n = Ok [b].
Proof.
  intros (Hlarge & Hn & Hb)%map_byte_Some.
  unfold read_granule. rewrite granule_map_range_eq, (granule_count_large self Hlarge).
  cbn [mbind outcome_bind]. zbool; try lia.
  replace (gmap_offset + n + 1 - (gmap_offset + n)) with 1 by lia.
  apply lookup_lt_Some in Hb as Hlt.
  rewrite pread_inside by (unfold len, gmap_offset in *; lia).
  by rewrite (drop_S _ _ _ Hb).
Qed.

Lemma read_granule_Ok_map_byte (self : t) (n : Z) (raw : list byte) :
  read_granule self n = Ok raw -> exists b, raw = [b] /\ map_byte self n = Some b.
Proof.
  intros Hraw. pose proof Hraw as Hraw'.
  apply read_granule_Ok in Hraw' as [(gc & Hgc & Hn) _].
  pose proof (granule_count_Ok_large self gc Hgc) as Hlarge.
  rewrite (granule_count_large self Hlarge) in Hgc. injection Hgc as <-.
  destruct (map_byte_in_range self n Hlarge Hn) as [b Hb].
  exists b. split; [| exact Hb].
  rewrite (read_granule_map_byte self n b Hb) in Hraw. by injection Hraw as <-.
Qed.

Lemma entry_at_map_byte (self : t) (lsbu n : Z) (b : byte) :
  map_byte self n = Some b ->
  entry_at self lsbu n = GranuleInfo.fromraw n (RawBytes [b]) lsbu Geometry.default.
Proof.
  intros Hb. unfold entry_at. by rewrite (read_granule_map_byte self n b Hb).
Qed.

Lemma entry_at_Ok_map_byte (self : t) (lsbu n : Z) (gi : GranuleInfo.t) :
  entry_at self lsbu n = Ok gi ->
  exists b, map_byte self n = Some b
            /\ GranuleInfo.fromraw n (RawBytes [b]) lsbu Geometry.default = Ok gi.
Proof.
  unfold entry_at. intros H. apply bind_Ok in H as (raw & Hraw & Hgi).
  apply read_granule_Ok_map_byte in Hraw as (b & -> & Hb). by exists b.
Qed.

(** The entry of an extent whose code names the next extent. *)
Lemma entry_at_continuation (self : t) (lsbu n n' : Z) :
  map_code self n = Some n' -> n' < 0xc0 ->
  entry_at self lsbu n = Ok (continuation_entry n n').
Proof.
  unfold map_code. destruct (map_byte self n) as [b |] eqn:Hb; [| discriminate].
  intros [= <-] Hlt. rewrite (entry_at_map_byte self lsbu n b Hb).
  rewrite (fromraw_cases n (RawBytes [b]) (byte_val b) lsbu _ eq_refl).
  destruct (Z.ltb_spec (byte_val b) 192); [reflexivity | lia].
Qed.

(** The entry of an extent whose code ends a chain. *)
Lemma entry_at_final (self : t) (lsbu n final : Z) :
  map_code self n = Some final ->
  0xc0 <= final <= 0xc9 \/ final = 0xff ->
  (final = 0xc0 -> lsbu = 0) ->
  entry_at self lsbu n = Ok (final_entry n final lsbu).
Proof.
  unfold map_code. destruct (map_byte self n) as [b |] eqn:Hb; [| discriminate].
  intros [= <-] Hfinal Hzero. rewrite (entry_at_map_byte self lsbu n b Hb).
  rewrite (fromraw_cases n (RawBytes [b]) (byte_val b) lsbu _ eq_refl).
  unfold final_entry, tail_bytes.
  destruct Hfinal as [Hterm | ->]; [| reflexivity].
  destruct (Z.ltb_spec (byte_val b) 192); [lia |].
  destruct (Z.leb_spec (byte_val b) 201); [| lia].
  destruct (Z.eqb_spec (byte_val b) 255); [lia |].
  rewrite terminal_low_nibble by lia.
  change (sectors_per_granule Geometry.default) with 9.
  change (bytes_per_sector Geometry.default) with 256.
  destruct (Z.leb_spec (byte_val b - 192) 9); [| lia]. cbn [py_assert mbind outcome_bind].
  destruct (Z.eqb_spec (byte_val b - 192) 0) as [Hz | Hnz].
  - rewrite (Hzero ltac:(lia)). cbn [Z.eqb py_assert mbind outcome_bind].
    destruct (Z.leb_spec 193 (byte_val b)); [lia |]. reflexivity.
  - cbn [mbind outcome_bind].
    destruct (Z.leb_spec 193 (byte_val b)); [| lia]. cbn [andb].
    do 2 f_equal. lia.
Qed.

(** A chain on disk is determined by the extent it starts at. *)
Lemma disk_chain_unique (self : t) (final1 final2 : Z) (rest1 : list Z) :
  forall (n : Z) (rest2 : list Z),
    disk_chain self n rest1 final1 -> disk_chain self n rest2 final2 ->
    rest1 = rest2 /\ final1 = final2.
Proof.
  induction rest1 as [| n1 rest1 IH]; intros n [| n2 rest2]; cbn [disk_chain].
  - intros [H1 _] [H2 _]. split; [reflexivity | congruence].
  - intros [H1 Hf] (H2 & Hlt & _). rewrite H1 in H2. injection H2 as ->. lia.
  - intros (H1 & Hlt & _) [H2 Hf]. rewrite H1 in H2. injection H2 as ->. lia.
  - intros (H1 & _ & Hr1) (H2 & _ & Hr2). rewrite H1 in H2. injection H2 as ->.
    destruct (IH n2 rest2 Hr1 Hr2) as [-> ->]. done.
Qed.

Lemma disk_chain_suffix (self : t) (final m : Z) (rest : list Z) :
  forall n : Z,
    disk_chain self n rest final -> m ∈ rest ->
    exists rest', disk_chain self m rest' final /\ (length rest' < length rest)%nat.
Proof.
  induction rest as [| n' rest IH]; intros n Hchain Hm; [by apply elem_of_nil in Hm |].
  destruct Hchain as (_ & _ & Hrest).
  apply elem_of_cons in Hm as [-> | Hm].
  - exists rest. split; [exact Hrest | cbn; lia].
  - destruct (IH n' Hrest Hm) as (rest' & Hchain' & Hlen).
    exists rest'. split; [exact Hchain' | cbn; lia].
Qed.

(** No extent comes twice in a chain that ends. *)
Lemma disk_chain_NoDup (self : t) (final : Z) (rest : list Z) :
  forall n : Z, disk_chain self n rest final -> NoDup (n :: rest).
Proof.
  induction rest as [| n' rest IH]; intros n Hchain.
  - constructor; [apply not_elem_of_nil | constructor].
  - constructor.
    + intros Hin.
      destruct (disk_chain_suffix self final n (n' :: rest) n Hchain Hin)
        as (rest' & Hchain' & Hlen).
      destruct (disk_chain_unique self _ _ _ _ _ Hchain Hchain') as [<- _]. lia.
    + destruct Hchain as (_ & _ & Hrest). by apply IH.
Qed.

Lemma disk_chain_in_map (self : t) (final : Z) (rest : list Z) :
  forall n : Z, disk_chain self n rest final ->
    Forall (fun x => 0 <= x < 192) (n :: rest).
Proof.
  assert (forall n c, map_code self n = Some c -> 0 <= n < 192) as Hrange.
  { intros n c. unfold map_code. destruct (map_byte self n) as [b |] eqn:Hb; [| discriminate].
    intros _. apply map_byte_Some in Hb. lia. }
  induction rest as [| n' rest IH]; intros n Hchain.
  - destruct Hchain as [Hn _]. constructor; [by eapply Hrange | constructor].
  - destruct Hchain as (Hn & _ & Hrest). constructor; [by eapply Hrange | by apply IH].
Qed.

Lemma disk_chain_length (self : t) (final n : Z) (rest : list Z) :
  disk_chain self n rest final -> (length (n :: rest) <= 192)%nat.
Proof.
  intros Hchain.
  pose proof (disk_chain_NoDup self final rest n Hchain) as Hnd.
  pose proof (disk_chain_in_map self final rest n Hchain) as Hin.
  rewrite <- (size_list_to_set (C := gset Z) _ Hnd).
  apply seen_size. intros x Hx. apply elem_of_list_to_set in Hx.
  rewrite Forall_forall in Hin. by apply Hin.
Qed.

(** The loop of [iter_granules] follows the chain on disk. *)
Lemma iter_granules_loop_follows (self : t) (lsbu final : Z) (rest : list Z) :
  0xc0 <= final <= 0xc9 \/ final = 0xff ->
  (final = 0xc0 -> lsbu = 0) ->
  forall (fuel : nat) (seen : gset Z) (n : Z),
    disk_chain self n rest final ->
    (length rest < fuel)%nat ->
    (forall x, x ∈ seen -> x ∉ n :: rest) ->
    iter_granules_loop self lsbu fuel seen n
    = Gen (disk_chain_entries n rest final lsbu) (Ok tt).
Proof.
  intros Hfinal Hzero. induction rest as [| n' rest IH]; intros fuel seen n Hchain Hfuel Hseen.
  - destruct fuel as [| fuel]; [cbn in Hfuel; lia |].
    destruct Hchain as [Hn _].
    rewrite iter_granules_loop_S, (entry_at_final self lsbu n final Hn Hfinal Hzero).
    cbn [disk_chain_entries]. unfold final_entry. destruct (final =? 255); reflexivity.
  - destruct fuel as [| fuel]; [cbn in Hfuel; lia |].
    pose proof (disk_chain_NoDup self final _ n Hchain) as Hnd.
    destruct Hchain as (Hn & Hlt & Hrest).
    rewrite iter_granules_loop_S, (entry_at_continuation self lsbu n n' Hn Hlt).
    cbn [continuation_entry GranuleInfo.last GranuleInfo.next_n].
    apply NoDup_cons in Hnd as [Hnotin Hnd].
    case_bool_decide as Hn'.
    { exfalso. apply elem_of_union in Hn' as [Hn' | Hn'].
      - apply (Hseen n' Hn'). right. left.
      - apply elem_of_singleton in Hn' as ->. apply Hnotin. left. }
    rewrite (IH fuel (seen ∪ {[ n ]}) n' Hrest); [reflexivity | cbn in Hfuel; lia |].
    intros x [Hx | Hx]%elem_of_union Hin.
    + apply (Hseen x Hx). by right.
    + apply elem_of_singleton in Hx as ->. by apply Hnotin.
Qed.

Lemma iter_granules_follows (self : t) (first_granule lsbu final : Z) (rest : list Z) :
  disk_chain self first_granule rest final ->
  0xc0 <= final <= 0xc9 \/ final = 0xff ->
  (final = 0xc0 -> lsbu = 0) ->
  iter_granules self first_granule lsbu
  = Gen (disk_chain_entries first_granule rest final lsbu) (Ok tt).
Proof.
  intros Hchain Hfinal Hzero. unfold iter_granules.
  apply (iter_granules_loop_follows self lsbu final rest Hfinal Hzero _ ∅ _ Hchain).
  - apply disk_chain_length in Hchain. unfold iter_granules_fuel.
    change (max_granules (geom self)) with 192. cbn [length] in Hchain. lia.
  - intros x Hx. by apply not_elem_of_empty in Hx.
Qed.

Lemma final_entry_fields (n final lsbu : Z) :
  0xc0 <= final <= 0xc9 \/ final = 0xff ->
  GranuleInfo.n (final_entry n final lsbu) = n
  /\ GranuleInfo.raw_value (final_entry n final lsbu) = final
  /\ GranuleInfo.bytes_used (final_entry n final lsbu) = tail_bytes final lsbu
  /\ GranuleInfo.last (final_entry n final lsbu) = true
  /\ GranuleInfo.free (final_entry n final lsbu) = bool_decide (final = 0xff).
Proof.
  intros Hfinal. unfold final_entry.
  destruct (Z.eqb_spec final 255) as [-> | Hne]; cbn; [done |].
  repeat split. by rewrite bool_decide_eq_false_2.
Qed.

Lemma disk_chain_entries_n (final lsbu : Z) (rest : list Z) :
  0xc0 <= final <= 0xc9 \/ final = 0xff ->
  forall n : Z, GranuleInfo.n <$> disk_chain_entries n rest final lsbu = n :: rest.
Proof.
  intros Hfinal. induction rest as [| n' rest IH]; intros n; cbn [disk_chain_entries fmap list_fmap].
  - by rewrite (proj1 (final_entry_fields n final lsbu Hfinal)).
  - fold (fmap (M := list) GranuleInfo.n). by rewrite IH.
Qed.

Lemma disk_chain_entries_length (final lsbu : Z) (rest : list Z) :
  forall n : Z, len (disk_chain_entries n rest final lsbu) = len rest + 1.
Proof.
  induction rest as [| n' rest IH]; intros n; [reflexivity |].
  cbn [disk_chain_entries]. specialize (IH n'). unfold len in *. cbn [length]. lia.
Qed.

Lemma disk_chain_entries_last (final lsbu : Z) (rest : list Z) :
  forall n : Z,
    exists m, m ∈ n :: rest
              /\ last (disk_chain_entries n rest final lsbu)
                 = Some (final_entry m final lsbu).
Proof.
  induction rest as [| n' rest IH]; intros n.
  - exists n. split; [left | reflexivity].
  - cbn [disk_chain_entries]. destruct (IH n') as (m & Hm & Hlast).
    exists m. split; [by right |].
    destruct (disk_chain_entries n' rest final lsbu) as [| g gs] eqn:Hd; [discriminate |].
    by rewrite last_cons, Hlast.
Qed.

Lemma disk_chain_entries_total (final lsbu : Z) (rest : list Z) :
  0xc0 <= final <= 0xc9 \/ final = 0xff ->
  forall n : Z,
    total_bytes_used (disk_chain_entries n rest final lsbu)
    = 2304 * len rest + tail_bytes final lsbu.
Proof.
  intros Hfinal. induction rest as [| n' rest IH]; intros n.
  - cbn [disk_chain_entries total_bytes_used foldr].
    destruct (final_entry_fields n final lsbu Hfinal) as (_ & _ & -> & _).
    unfold len. cbn. lia.
  - cbn [disk_chain_entries total_bytes_used foldr]. fold (total_bytes_used (disk_chain_entries n' rest final lsbu)).
    rewrite IH. unfold len. cbn [length continuation_entry GranuleInfo.bytes_used]. lia.
Qed.


Lemma disk_chain_entries_free (final lsbu : Z) (rest : list Z) :
  final = 0xff ->
  forall n : Z,
    Exists (fun gi => GranuleInfo.free gi = true) (disk_chain_entries n rest final lsbu).
Proof.
  intros ->. induction rest as [| n' rest IH]; intros n; cbn [disk_chain_entries].
  - by apply Exists_cons_hd.
  - apply Exists_cons_tl, IH.
Qed.




Lemma get_file_sizes_follows (self : t) (dentry : DirectoryEntry.t) (final : Z)
    (rest : list Z) :
  disk_chain self (DirectoryEntry.first_granule dentry) rest final ->
  0xc0 <= final <= 0xc9 \/ final = 0xff ->
  (final = 0xc0 -> DirectoryEntry.last_sector_bytes_used dentry = 0) ->
  get_file_sizes self dentry
  = Ok (2304 * len rest + tail_bytes final (DirectoryEntry.last_sector_bytes_used dentry),
        256, 9 * (len rest + 1)).
Proof.
  intros Hchain Hfinal Hzero. unfold get_file_sizes, iter_dentry_granules.
  rewrite (iter_granules_follows self _ _ final rest Hchain Hfinal Hzero).
  cbn [yielded ending]. rewrite get_file_sizes_fold.
  rewrite (disk_chain_entries_total _ _ _ Hfinal), disk_chain_entries_length.
  cbn [mbind outcome_bind].
  change (sectors_per_granule (geom self)) with 9.
  change (bytes_per_sector (geom self)) with 256.
  apply f_equal. apply f_equal2; [apply f_equal2 |]; lia.
Qed.



(** ** A chain that runs into a free entry *)

(** C5: when the chain on disk runs into a free entry (code [0xff]) where a
    terminal code should be, [iter_granules] raises no
    [RecoverableCorruption]: it yields one entry for every extent of the
    chain and the free entry last, and ends normally, as at the end of a
    file; [get_file_sizes] then sizes the chain as a file of whole extents,
    and only [pread_file] stops, at its own [assert not gi.free]. *)
Theorem iter_granules_takes_free_entry_for_end (self : t) (dentry : DirectoryEntry.t)
    (rest : list Z) (length_ offset : Z) :
  disk_chain self (DirectoryEntry.first_granule dentry) rest 0xff ->
  ending (iter_granules self (DirectoryEntry.first_granule dentry)
            (DirectoryEntry.last_sector_bytes_used dentry)) = Ok tt
  /\ GranuleInfo.n <$> yielded (iter_granules self (DirectoryEntry.first_granule dentry)
                                  (DirectoryEntry.last_sector_bytes_used dentry))
     = DirectoryEntry.first_granule dentry :: rest
  /\ (exists gi,
        last (yielded (iter_granules self (DirectoryEntry.first_granule dentry)
                         (DirectoryEntry.last_sector_bytes_used dentry))) = Some gi
        /\ GranuleInfo.raw_value gi = 0xff
        /\ GranuleInfo.free gi = true
        /\ GranuleInfo.last gi = true)
  /\ get_file_sizes self dentry = Ok (2304 * len rest, 256, 9 * (len rest + 1))
  /\ pread_file self dentry length_ offset = Raise AssertionError.
Proof.
  intros Hchain.
  assert (0xc0 <= 0xff <= 0xc9 \/ 0xff = 0xff) as Hfinal by (by right).
  assert (0xff = 0xc0 -> DirectoryEntry.last_sector_bytes_used dentry = 0) as Hzero by lia.
  pose proof (iter_granules_follows self _ _ 0xff rest Hchain Hfinal Hzero) as Hwalk.
  rewrite Hwalk. cbn [yielded ending].
  split; [reflexivity |].
  split; [by apply disk_chain_entries_n |].
  split.
  - destruct (disk_chain_entries_last 0xff (DirectoryEntry.last_sector_bytes_used dentry)
                rest (DirectoryEntry.first_granule dentry)) as (m & _ & Hlast).
    exists (final_entry m 0xff (DirectoryEntry.last_sector_bytes_used dentry)).
    split; [exact Hlast |]. done.
  - split.
    + rewrite (get_file_sizes_follows self dentry 0xff rest Hchain Hfinal Hzero).
      do 2 f_equal. f_equal. unfold tail_bytes. cbn. lia.
    + apply pread_file_free_entry. unfold iter_dentry_granules. rewrite Hwalk.
      by apply disk_chain_entries_free.
Qed.

Lemma iter_granules_takes_free_entry_for_end_witness :
  ending (iter_granules (Make dangling_disk) 5 0) = Ok tt
  /\ GranuleInfo.n <$> yielded (iter_granules (Make dangling_disk) 5 0) = [5; 9]
  /\ (exists gi,
        last (yielded (iter_granules (Make dangling_disk) 5 0)) = Some gi
        /\ GranuleInfo.raw_value gi = 0xff
        /\ GranuleInfo.free gi = true
        /\ GranuleInfo.last gi = true)
  /\ get_file_sizes (Make dangling_disk) dangling_dentry = Ok (2304, 256, 18)
  /\ pread_file (Make dangling_disk) dangling_dentry 100 0 = Raise AssertionError.
Proof.
  apply (iter_granules_takes_free_entry_for_end (Make dangling_disk) dangling_dentry [9] 100 0).
  split; [vm_compute; reflexivity |]. split; [lia |].
  split; [vm_compute; reflexivity | lia].
Defined.

(** ** The size of a file and its chain on disk *)

(** A walk that ends normally has followed a chain on disk to its end. *)
Lemma chain_disk_chain (self : t) (lsbu : Z) (gis : list GranuleInfo.t) :
  forall (n : Z) (l : GranuleInfo.t),
    chain self lsbu n gis ->
    last gis = Some l -> GranuleInfo.last l = true ->
    exists rest final,
      disk_chain self n rest final
      /\ (0xc0 <= final <= 0xc9 \/ final = 0xff)
      /\ (final = 0xc0 -> lsbu = 0)
      /\ gis = disk_chain_entries n rest final lsbu.
Proof.
  induction gis as [| gi [| g' gis] IH]; intros n l Hchain Hl Hlast.
  - discriminate.
  - injection Hl as ->. destruct Hchain as [Hgi _].
    pose proof Hgi as Hgi'.
    apply entry_at_Ok_map_byte in Hgi' as (b & Hb & Hraw).
    assert (map_code self n = Some (byte_val b)) as Hcode by (unfold map_code; by rewrite Hb).
    assert ((0xc0 <= byte_val b <= 0xc9 \/ byte_val b = 0xff)
            /\ (byte_val b = 0xc0 -> lsbu = 0)) as [Hfinal Hzero].
    { revert Hraw. rewrite (fromraw_cases n (RawBytes [b]) (byte_val b) lsbu _ eq_refl).
      destruct (Z.ltb_spec (byte_val b) 192).
      { intros [= <-]. cbn in Hlast. discriminate. }
      destruct (Z.leb_spec (byte_val b) 201).
      { rewrite terminal_low_nibble by lia. unfold py_assert. cbn.
        destruct (Z.leb_spec (byte_val b - 192) 9); [| lia]. cbn.
        destruct (Z.eqb_spec (byte_val b - 192) 0).
        - destruct (Z.eqb_spec lsbu 0); cbn; [| discriminate].
          intros _. split; [lia | done].
        - intros _. split; lia. }
      destruct (Z.eqb_spec (byte_val b) 255); [| discriminate].
      intros _. split; lia. }
    exists [], (byte_val b). split; [split; [exact Hcode | lia] |].
    split; [exact Hfinal |]. split; [exact Hzero |].
    rewrite (entry_at_final self lsbu n _ Hcode Hfinal Hzero) in Hgi.
    injection Hgi as <-. reflexivity.
  - destruct Hchain as (Hgi & Hcont & n' & Hnext & Hrest).
    rewrite last_cons_cons in Hl.
    destruct (IH n' l Hrest Hl Hlast) as (rest & final & Hchain & Hfinal & Hzero & Heq).
    pose proof Hgi as Hgi'.
    apply entry_at_Ok_map_byte in Hgi' as (b & Hb & Hraw).
    assert (map_code self n = Some n' /\ n' < 0xc0) as [Hcode Hlt].
    { revert Hraw. rewrite (fromraw_cases n (RawBytes [b]) (byte_val b) lsbu _ eq_refl).
      unfold map_code. rewrite Hb. cbn [fmap option_fmap option_map].
      destruct (Z.ltb_spec (byte_val b) 192).
      { intros [= <-]. cbn in Hnext. injection Hnext as <-. done. }
      destruct (Z.leb_spec (byte_val b) 201).
      { unfold py_assert. repeat (case_match; cbn; try discriminate);
          intros [= <-]; cbn in Hcont; discriminate. }
      destruct (Z.eqb_spec (byte_val b) 255); [| discriminate].
      intros [= <-]. cbn in Hcont. discriminate. }
    exists (n' :: rest), final. split; [done |].
    split; [exact Hfinal |]. split; [exact Hzero |].
    rewrite (entry_at_continuation self lsbu n n' Hcode Hlt) in Hgi.
    injection Hgi as <-. cbn [disk_chain_entries]. by rewrite Heq.
Qed.

(** X14: when [get_file_sizes] succeeds, the chain on disk from the first
    extent of the entry runs through continuation codes to a code that ends
    it, a terminal code ([0xc0] to [0xc9]) or the free code [0xff]; the walk
    has visited its extents in order, and the sizes are: logical size = 2304
    bytes for each extent before the last plus the bytes the last code and
    [last_sector_bytes_used] give the last extent (none for [0xc0] and for
    [0xff]); sector size 256; allocated sectors = 9 for each extent of the
    chain. *)
Theorem get_file_sizes_formula (self : t) (dentry : DirectoryEntry.t)
    (size bps alloc : Z) :
  get_file_sizes self dentry = Ok (size, bps, alloc) ->
  exists rest final,
    disk_chain self (DirectoryEntry.first_granule dentry) rest final
    /\ (0xc0 <= final <= 0xc9 \/ final = 0xff)
    /\ (final = 0xc0 -> DirectoryEntry.last_sector_bytes_used dentry = 0)
    /\ GranuleInfo.n <$> yielded (iter_dentry_granules self dentry)
       = DirectoryEntry.first_granule dentry :: rest
    /\ size = 2304 * len rest
              + tail_bytes final (DirectoryEntry.last_sector_bytes_used dentry)
    /\ bps = 256
    /\ alloc = 9 * (len rest + 1).
Proof.
  intros Hsizes. pose proof Hsizes as Hsizes'.
  apply get_file_sizes_Ok in Hsizes' as (Hend & _).
  unfold iter_dentry_granules in *.
  apply (proj1 (iter_granules_ending self _ _)) in Hend as (l & Hl & Hlast).
  pose proof (iter_granules_chain self (DirectoryEntry.first_granule dentry)
                (DirectoryEntry.last_sector_bytes_used dentry)) as Hchain.
  destruct (chain_disk_chain self _ _ _ _ Hchain Hl Hlast)
    as (rest & final & Hdisk & Hfinal & Hzero & Heq).
  exists rest, final. split; [exact Hdisk |]. split; [exact Hfinal |].
  split; [exact Hzero |].
  split; [rewrite Heq; by apply disk_chain_entries_n |].
  rewrite (get_file_sizes_follows self dentry final rest Hdisk Hfinal Hzero) in Hsizes.
  injection Hsizes as <- <- <-. done.
Qed.

Lemma get_file_sizes_formula_witness :
  exists rest final,
    disk_chain (Make split_disk) (DirectoryEntry.first_granule split_dentry) rest final
    /\ (0xc0 <= final <= 0xc9 \/ final = 0xff)
    /\ (final = 0xc0 -> DirectoryEntry.last_sector_bytes_used split_dentry = 0)
    /\ GranuleInfo.n <$> yielded (iter_dentry_granules (Make split_disk) split_dentry)
       = DirectoryEntry.first_granule split_dentry :: rest
    /\ 2570 = 2304 * len rest
              + tail_bytes final (DirectoryEntry.last_sector_bytes_used split_dentry)
    /\ 256 = 256
    /\ 18 = 9 * (len rest + 1).
Proof.
  apply (get_file_sizes_formula (Make split_disk) split_dentry 2570 256 18).
  vm_compute. reflexivity.
Defined.

(** ** The directory slots of the image *)

Lemma set_is_forallb (bs : list byte) (v : byte) :
  bs <> [] ->
  DirectoryEntry.set_is bs (byte_val v) = forallb (fun b => byte_val b =? byte_val v) bs.
Proof.
  intros Hne. apply Bool.eq_iff_eq_true. rewrite set_is_spec, forallb_forall, Forall_forall.
  split.
  - intros [_ Hall] b Hb. apply list_elem_of_In in Hb. rewrite (Hall b Hb). apply Z.eqb_refl.
  - intros Hall. split; [exact Hne |]. intros b Hb. apply list_elem_of_In in Hb.
    apply byte_val_inj, Z.eqb_eq. by apply Hall.
Qed.

Lemma slots_present_range (self : t) : 0 <= slots_present self <= 72.
Proof. unfold slots_present. lia. Qed.

Lemma slots_present_inside (self : t) (i : Z) :
  0 <= i < 72 ->
  i < slots_present self <-> directory_offset + 32 * i + 32 <= len (io self).
Proof. intros Hi. unfold slots_present, directory_offset. dlia. Qed.

(** A slot that lies in the image is read as its 32 bytes. *)
Lemma read_directory_entry_slot (self : t) (i : Z) :
  0 <= i < slots_present self ->
  read_directory_entry self i = Ok (slot_bytes self i)
  /\ length (slot_bytes self i) = 32%nat.
Proof.
  intros Hi. pose proof (slots_present_range self) as Hr.
  assert (directory_offset + 32 * i + 32 <= len (io self)) as Hin
    by (apply slots_present_inside; lia).
  rewrite (read_directory_entry_eq self i ltac:(lia)).
  rewrite pread_inside by (unfold directory_offset in *; lia).
  split; [reflexivity |].
  unfold slot_bytes, image_bytes. rewrite length_take, length_drop.
  unfold len, directory_offset in *. lia.
Qed.

(** The flags of a decoded slot, read off its bytes. *)
Lemma directory_fromraw_slot (i : Z) (raw : list byte) (geom : Geometry.t) :
  length raw = 32%nat ->
  exists d,
    DirectoryEntry.fromraw i raw geom = Ok d
    /\ DirectoryEntry.n d = i
    /\ DirectoryEntry.null d = forallb (fun b => byte_val b =? 0) raw
    /\ DirectoryEntry.free d
       = match raw with b :: _ => byte_val b =? 0 | [] => false end
         || forallb (fun b => byte_val b =? 0xff) (take 8 raw).
Proof.
  intros Hlen. unfold DirectoryEntry.fromraw.
  assert (len raw = 32) as -> by (unfold len; lia). cbn [Z.eqb Pos.eqb negb].
  eexists. split; [reflexivity |]. cbn [DirectoryEntry.n DirectoryEntry.null DirectoryEntry.free].
  split; [reflexivity |].
  destruct raw as [| b0 raw]; [discriminate |].
  split.
  - change 0 with (byte_val x00). by apply set_is_forallb.
  - unfold slice. change (drop (Z.to_nat 0) (take (Z.to_nat 8) (b0 :: raw)))
      with (b0 :: take 7 raw).
    cbn [nth]. f_equal.
    change 255 with (byte_val xff). by apply set_is_forallb.
Qed.

(** One turn of the loop of [iter_directory_entries] at a slot that lies in
    the image. *)
Lemma iter_directory_entries_over_present (self : t) (include_free : bool) (i : Z)
    (rest : list Z) :
  0 <= i < slots_present self ->
  exists d,
    DirectoryEntry.fromraw i (slot_bytes self i) (geom self) = Ok d
    /\ DirectoryEntry.n d = i
    /\ DirectoryEntry.free d = slot_free self i
    /\ iter_directory_entries_over self include_free (i :: rest)
       = if slot_null self i then iter_directory_entries_over self include_free rest
         else if slot_free self i && negb include_free
              then iter_directory_entries_over self include_free rest
              else gen_yield d (iter_directory_entries_over self include_free rest).
Proof.
  intros Hi. destruct (read_directory_entry_slot self i Hi) as [Hread Hlen].
  destruct (directory_fromraw_slot i (slot_bytes self i) (geom self) Hlen)
    as (d & Hd & Hn & Hnull & Hfree).
  exists d. split; [exact Hd |]. split; [exact Hn |].
  split; [exact Hfree |].
  cbn [iter_directory_entries_over]. rewrite Hread. cbn [mbind outcome_bind].
  rewrite Hd, Hnull, Hfree. reflexivity.
Qed.

(** At a slot that the image does not hold in full the loop stops. *)
Lemma iter_directory_entries_over_absent (self : t) (include_free : bool) (i : Z)
    (rest : list Z) :
  slots_present self <= i < 72 ->
  iter_directory_entries_over self include_free (i :: rest)
  = gen_end (Raise AssertionError).
Proof.
  intros Hi. pose proof (slots_present_range self) as Hr.
  cbn [iter_directory_entries_over].
  rewrite read_directory_entry_short; [reflexivity | lia |].
  pose proof (slots_present_inside self i ltac:(lia)). lia.
Qed.

(** Over slots that lie in the image the loop yields the visible ones, in
    order, and ends normally. *)
Lemma iter_directory_entries_over_visible (self : t) (include_free : bool)
    (slots : list Z) :
  Forall (fun i => 0 <= i < slots_present self) slots ->
  DirectoryEntry.n <$> yielded (iter_directory_entries_over self include_free slots)
  = List.filter (slot_visible self include_free) slots
  /\ ending (iter_directory_entries_over self include_free slots) = Ok tt.
Proof.
  induction slots as [| i rest IH]; intros Hslots; [done |].
  apply Forall_cons in Hslots as [Hi Hslots]. destruct (IH Hslots) as [IHy IHe].
  destruct (iter_directory_entries_over_present self include_free i rest Hi)
    as (d & _ & Hn & _ & ->).
  cbn [List.filter]. unfold slot_visible at 1.
  destruct (slot_null self i); cbn [negb andb]; [done |].
  destruct (slot_free self i), include_free; cbn [negb andb orb]; try done.
  all: cbn [gen_yield yielded ending fmap list_fmap];
    fold (fmap (M := list) DirectoryEntry.n); by rewrite Hn, IHy.
Qed.

Lemma iter_directory_entries_over_app (self : t) (include_free : bool)
    (slots1 slots2 : list Z) :
  ending (iter_directory_entries_over self include_free slots1) = Ok tt ->
  iter_directory_entries_over self include_free (slots1 ++ slots2)
  = Gen (yielded (iter_directory_entries_over self include_free slots1)
         ++ yielded (iter_directory_entries_over self include_free slots2))
        (ending (iter_directory_entries_over self include_free slots2)).
Proof.
  induction slots1 as [| i rest IH]; intros Hend.
  - cbn. by destruct (iter_directory_entries_over self include_free slots2).
  - cbn [app iter_directory_entries_over] in *.
    destruct (read_directory_entry self i ≫= _) as [d | e |]; [| discriminate ..].
    destruct (DirectoryEntry.null d); [by apply IH |].
    destruct (DirectoryEntry.free d && negb include_free); [by apply IH |].
    cbn [gen_yield yielded ending] in *. by rewrite (IH Hend).
Qed.

(** The enumeration shows the visible ones of the slots that lie in the
    image, in order. *)
Lemma iter_directory_entries_visible (self : t) (include_free : bool) :
  DirectoryEntry.n <$> yielded (iter_directory_entries self include_free)
  = List.filter (slot_visible self include_free) (seqZ 0 (slots_present self)).
Proof.
  pose proof (slots_present_range self) as Hr.
  unfold iter_directory_entries. change (max_directory_entries (geom self)) with 72.
  replace 72 with (slots_present self + (72 - slots_present self)) at 1 by lia.
  rewrite seqZ_app by lia.
  destruct (iter_directory_entries_over_visible self include_free
              (seqZ 0 (slots_present self))) as [Hy He].
  { apply Forall_seqZ. lia. }
  rewrite (iter_directory_entries_over_app _ _ _ _ He). cbn [yielded].
  rewrite fmap_app, Hy.
  destruct (Z.eq_dec (slots_present self) 72) as [-> | Hne].
  - change (seqZ (0 + 72) (72 - 72)) with (@nil Z). cbn. by rewrite app_nil_r.
  - rewrite (seqZ_cons (0 + slots_present self)) by lia.
    rewrite iter_directory_entries_over_absent by lia. cbn. by rewrite app_nil_r.
Qed.

(** What [count_directory_entries] counts, slot by slot. *)
Lemma iter_directory_entries_over_counts (self : t) (slots : list Z) :
  Forall (fun i => 0 <= i < slots_present self) slots ->
  len (yielded (iter_directory_entries_over self true slots))
  = len (List.filter (fun i => negb (slot_null self i)) slots)
  /\ len (filter (fun d => DirectoryEntry.free d = true)
            (yielded (iter_directory_entries_over self true slots)))
     = len (List.filter (fun i => negb (slot_null self i) && slot_free self i) slots)
  /\ len (filter (fun d => DirectoryEntry.free d = false)
            (yielded (iter_directory_entries_over self true slots)))
     = len (List.filter (fun i => negb (slot_null self i) && negb (slot_free self i)) slots).
Proof.
  induction slots as [| i rest IH]; intros Hslots; [done |].
  apply Forall_cons in Hslots as [Hi Hslots]. destruct (IH Hslots) as (IH1 & IH2 & IH3).
  destruct (iter_directory_entries_over_present self true i rest Hi)
    as (d & _ & _ & Hfree & ->).
  cbn [List.filter].
  destruct (slot_null self i); cbn [negb andb]; [done |].
  rewrite andb_false_r. cbn [gen_yield yielded]. rewrite !filter_cons, Hfree.
  unfold len in *.
  destruct (slot_free self i); cbn [negb].
  - destruct (decide (true = true)); [| done]. destruct (decide (true = false)); [done |].
    cbn [length]. lia.
  - destruct (decide (false = true)); [done |]. destruct (decide (false = false)); [| done].
    cbn [length]. lia.
Qed.

(** C9: [iter_directory_entries] never yields a slot whose 32 bytes are all
    zero, with or without [include_free]; without it, it never yields an
    entry whose filename is all [0xff] or starts with [0x00]; the entries
    come in increasing slot order; and every other slot is produced: the
    slots of the entries yielded are exactly those slots lying in the image
    whose 32 bytes are not all zero and, without [include_free], whose file
    name neither starts with a zero byte nor is [0xff] throughout, each slot
    being read as the 32 bytes the image has for it. *)
Theorem iter_directory_entries_hides_null_and_free (self : t) :
  (forall include_free d,
      d ∈ yielded (iter_directory_entries self include_free) ->
      exists raw,
        read_directory_entry self (DirectoryEntry.n d) = Ok raw
        /\ DirectoryEntry.fromraw (DirectoryEntry.n d) raw (geom self) = Ok d
        /\ length raw = 32%nat
        /\ ~ Forall (fun b => b = x00) raw
        /\ (include_free = false ->
            ~ Forall (fun b => b = xff) (DirectoryEntry.filename d)
            /\ head (DirectoryEntry.filename d) <> Some x00))
  /\ (forall include_free,
        StronglySorted Z.lt
          (DirectoryEntry.n <$> yielded (iter_directory_entries self include_free)))
  /\ (forall include_free,
        DirectoryEntry.n <$> yielded (iter_directory_entries self include_free)
        = List.filter (slot_visible self include_free) (seqZ 0 (slots_present self)))
  /\ (forall i, 0 <= i < slots_present self ->
        read_directory_entry self i = Ok (slot_bytes self i)).
Proof.
  split; [| split; [| split]].
  - intros include_free d Hd. unfold iter_directory_entries in Hd.
    pose proof (iter_directory_entries_over_spec self include_free
                  (seqZ 0 (max_directory_entries (geom self)))) as Hall.
    rewrite Forall_forall in Hall.
    destruct (Hall d Hd) as (_ & (raw & Hread & Hraw) & Hnull & Hfree).
    destruct (fromraw_flags _ _ _ _ Hraw) as (Hlen & _ & Hnz & Hnf).
    exists raw. repeat split; try done.
    + by apply Hnz.
    + apply Hnf; auto.
    + apply Hnf; auto.
  - intros include_free. unfold iter_directory_entries.
    apply iter_directory_entries_over_sorted.
    change (max_directory_entries (geom self)) with (Z.of_nat 72). apply seqZ_sorted.
  - apply iter_directory_entries_visible.
  - intros i Hi. by apply read_directory_entry_slot.
Qed.

Lemma iter_directory_entries_hides_null_and_free_witness :
  (exists raw,
     read_directory_entry (Make gap_disk) (DirectoryEntry.n gap_dentry) = Ok raw
     /\ DirectoryEntry.fromraw (DirectoryEntry.n gap_dentry) raw (geom (Make gap_disk))
        = Ok gap_dentry
     /\ length raw = 32%nat
     /\ ~ Forall (fun b => b = x00) raw
     /\ (false = false ->
         ~ Forall (fun b => b = xff) (DirectoryEntry.filename gap_dentry)
         /\ head (DirectoryEntry.filename gap_dentry) <> Some x00))
  /\ DirectoryEntry.n <$> yielded (iter_directory_entries (Make gap_disk) false) = [2]
  /\ DirectoryEntry.n <$> yielded (iter_directory_entries (Make gap_disk) true)
     = seqZ 1 71.
Proof.
  pose proof (iter_directory_entries_hides_null_and_free (Make gap_disk))
    as (Hhide & _ & Hvisible & _).
  split; [| split].
  - apply Hhide. vm_compute. constructor.
  - rewrite (Hvisible false). vm_compute. reflexivity.
  - rewrite (Hvisible true). vm_compute. reflexivity.
Defined.

(** X11: on an image that holds the whole directory (81152 bytes or more)
    enumerating the directory cannot fail: [iter_directory_entries] ends
    normally after at most 72 entries, one for each of the 72 slots of the
    image that it shows; and [count_directory_entries] returns the number of
    slots whose 32 bytes are not all zero, the number of those whose file
    name starts with a zero byte or is [0xff] throughout, and the number of
    the others; the last two add up to the first. *)
Theorem directory_enumeration_succeeds (self : t) (include_free : bool) :
  81152 <= len (io self) ->
  ending (iter_directory_entries self include_free) = Ok tt
  /\ len (yielded (iter_directory_entries self include_free)) <= 72
  /\ DirectoryEntry.n <$> yielded (iter_directory_entries self include_free)
     = List.filter (slot_visible self include_free) (seqZ 0 72)
  /\ count_directory_entries self
     = Ok (len (List.filter (fun i => negb (slot_null self i)) (seqZ 0 72)),
           len (List.filter (fun i => negb (slot_null self i) && slot_free self i)
                  (seqZ 0 72)),
           len (List.filter (fun i => negb (slot_null self i) && negb (slot_free self i))
                  (seqZ 0 72)))
  /\ len (List.filter (fun i => negb (slot_null self i) && slot_free self i) (seqZ 0 72))
     + len (List.filter (fun i => negb (slot_null self i) && negb (slot_free self i))
              (seqZ 0 72))
     = len (List.filter (fun i => negb (slot_null self i)) (seqZ 0 72)).
Proof.
  intros Hlarge.
  assert (slots_present self = 72) as Hall by (unfold slots_present, directory_offset; dlia).
  assert (forall incl, ending (iter_directory_entries self incl) = Ok tt) as Hend.
  { intros incl. apply iter_directory_entries_over_ending_ok;
      [unfold directory_offset; lia | apply slots_in_range]. }
  destruct (iter_directory_entries_over_counts self
              (seqZ 0 (max_directory_entries (geom self)))) as (Hc1 & Hc2 & Hc3).
  { rewrite Hall. apply slots_in_range. }
  fold (iter_directory_entries self true) in Hc1, Hc2, Hc3.
  change (max_directory_entries (geom self)) with 72 in Hc1, Hc2, Hc3.
  split; [apply Hend |]. split; [| split; [| split]].
  - pose proof (iter_directory_entries_over_length self include_free
                  (seqZ 0 (max_directory_entries (geom self)))) as Hlen.
    rewrite length_seqZ in Hlen. unfold iter_directory_entries, len.
    change (max_directory_entries (geom self)) with 72 in *. lia.
  - rewrite iter_directory_entries_visible. by rewrite Hall.
  - unfold count_directory_entries. rewrite count_directory_entries_fold, Hend.
    cbn [mbind outcome_bind]. rewrite Hc1, Hc2, Hc3. reflexivity.
  - rewrite <- Hc1, <- Hc2, <- Hc3. apply filter_free_split.
Qed.

Lemma directory_enumeration_succeeds_witness :
  ending (iter_directory_entries (Make gap_disk) false) = Ok tt
  /\ len (yielded (iter_directory_entries (Make gap_disk) false)) <= 72
  /\ DirectoryEntry.n <$> yielded (iter_directory_entries (Make gap_disk) false) = [2]
  /\ count_directory_entries (Make gap_disk) = Ok (71, 70, 1)
  /\ 70 + 1 = 71.
Proof.
  pose proof (directory_enumeration_succeeds (Make gap_disk) false
                ltac:(vm_compute; discriminate)) as (H1 & H2 & H3 & H4 & H5).
  split; [exact H1 |]. split; [exact H2 |].
  split; [rewrite H3; vm_compute; reflexivity |].
  split; [rewrite H4; vm_compute; reflexivity |]. reflexivity.
Defined.

(** ** The search for free extents *)

